(** * ChatBot: the dispatch state machine of [src/components/ChatBot.tsx]

    The component keeps five pieces of React state ([messages], [input],
    [isLoading], [dbStats], [isTyping]) and mutates them from three
    handlers: [handleSendMessage] (an async function, suspended once at
    [await fetch]), [handleSubmit] and [clearChat].

    The embedding is shallow.  React state is a record; every handler is a
    function on that record.  The async handler is cut at its single
    suspension point into the part that runs before [await fetch]
    ([handleSendMessage]) and the continuation that runs when the promise
    settles ([resumeSendMessage]).  The [try]/[catch]/[finally] statement
    of the continuation is modelled with a small state-and-exception monad.
    What the outside world decides (the clock, the settling of the fetch
    promise) enters as arguments.

    A handler is a closure of the render that created it: where the source
    reads [isLoading], [messages] or [input] it reads the values that
    render captured ([Closure]), while its setters act on the current
    state.  [stepIn] runs an event through the handlers of a given
    closure; [step] is the case of a render committed just before the
    event; [perform] lets renders be committed at any time, so that several
    events may be handled by the handlers of one render.

    JavaScript strings are modelled as [string], read as the UTF-8
    encoding of the text; the three tokens searched by the classifier are
    ASCII, so byte-wise substring search agrees with [String.includes]. *)

From Stdlib Require Import List Bool Arith NArith ZArith Lia.
From Stdlib Require Import Strings.String Strings.Ascii.
From Stdlib Require Import Numbers.DecimalString Numbers.DecimalN Numbers.DecimalPos.
Import ListNotations.

Local Open Scope list_scope.
Local Open Scope string_scope.

(** ** JavaScript string primitives used by the component *)

Module JsString.

(** [s.includes(searchString)]: does [searchString] occur in [s]? *)
Fixpoint includes (s searchString : string) : bool :=
  String.prefix searchString s
  || match s with
     | EmptyString => false
     | String _ rest => includes rest searchString
     end.

(** The mathematical reading of [includes]. *)
Definition Occurs (searchString s : string) : Prop :=
  exists before after, s = before ++ searchString ++ after.

(** Number of bytes of the UTF-8 sequence introduced by lead byte [c]. *)
Definition utf8Width (c : ascii) : nat :=
  let n := nat_of_ascii c in
  if (n <? 192)%nat then 1
  else if (n <? 224)%nat then 2
  else if (n <? 240)%nat then 3 else 4.

(** Split a UTF-8 string into the encodings of its code points.  A
    truncated trailing sequence is kept as one (non-whitespace) item. *)
Fixpoint codePoints (s : string) : list string :=
  match s with
  | EmptyString => []
  | String c1 r1 =>
      match utf8Width c1 with
      | 1 => String c1 "" :: codePoints r1
      | 2 =>
          match r1 with
          | String c2 r2 => String c1 (String c2 "") :: codePoints r2
          | EmptyString => [s]
          end
      | 3 =>
          match r1 with
          | String c2 (String c3 r3) =>
              String c1 (String c2 (String c3 "")) :: codePoints r3
          | _ => [s]
          end
      | _ =>
          match r1 with
          | String c2 (String c3 (String c4 r4)) =>
              String c1 (String c2 (String c3 (String c4 ""))) :: codePoints r4
          | _ => [s]
          end
      end
  end.

Definition ofBytes (l : list nat) : string :=
  string_of_list_ascii (map ascii_of_nat l).

(** ECMAScript WhiteSpace and LineTerminator code points, UTF-8 encoded:
    TAB LF VT FF CR SP, U+00A0, U+1680, U+2000..U+200A, U+2028, U+2029,
    U+202F, U+205F, U+3000, U+FEFF. *)
Definition whiteSpace : list string :=
  map ofBytes
    [ [9]; [10]; [11]; [12]; [13]; [32];
      [194; 160];
      [225; 154; 128];
      [226; 128; 128]; [226; 128; 129]; [226; 128; 130]; [226; 128; 131];
      [226; 128; 132]; [226; 128; 133]; [226; 128; 134]; [226; 128; 135];
      [226; 128; 136]; [226; 128; 137]; [226; 128; 138];
      [226; 128; 168]; [226; 128; 169];
      [226; 128; 175];
      [226; 129; 159];
      [227; 128; 128];
      [239; 187; 191] ].

Definition isWhiteSpace (cp : string) : bool :=
  existsb (String.eqb cp) whiteSpace.

Fixpoint dropWhile {A} (p : A -> bool) (l : list A) : list A :=
  match l with
  | [] => []
  | x :: rest => if p x then dropWhile p rest else l
  end.

(** [s.trim()]: strip white space from both ends. *)
Definition trim (s : string) : string :=
  String.concat ""
    (rev (dropWhile isWhiteSpace (rev (dropWhile isWhiteSpace (codePoints s))))).

(** Truthiness of a string: only the empty string is falsy. *)
Definition truthy (s : string) : bool :=
  match s with EmptyString => false | String _ _ => true end.

(** [n.toString()] for a non-negative integer. *)
Definition toString (n : N) : string :=
  NilZero.string_of_uint (N.to_uint n).

End JsString.

Import JsString.

(** ** Data model *)

Inductive Role := user | assistant.

Record Message := mkMessage
  { id : string;          (* [Date.now().toString()] *)
    content : string;
    role : Role;
    timestamp : N }.      (* [new Date()], as milliseconds since the epoch *)

Record DbStats := mkDbStats
  { total_records : Z;
    types : list string;
    related_records : option Z;
    latest_update : option string }.

Definition SUGGESTED_QUERIES : list string :=
  [ "¿Cuál es la última imagen en la base de datos?";
    "¿Hay alguna imagen similar a la última subida?";
    "¿Cuál es el sentimiento general de los últimos textos?";
    "Resume los últimos 3 documentos";
    "¿Hay audios en español?" ].

(** *** The wire: what [fetch] is given and what it may give back *)

(** One entry of [history]: the result of
    [({ content, role }) => ({ content, role })]. *)
Record WireMessage := mkWire
  { wire_content : string;
    wire_role : Role }.

(** The object passed to [JSON.stringify]. *)
Record RequestBody := mkBody
  { message : string;
    history : list WireMessage }.

Record Request := mkRequest
  { url : string;
    method : string;
    contentType : string;
    body : RequestBody }.

(** A value caught by [catch (error)]: either an [Error] object with its
    [message], or anything else. *)
Inductive Thrown :=
| ErrorObject (msg : string)
| OtherValue.

(** The parsed success body [{response, data?}]. *)
Record ReplyJson := mkReply
  { response : string;
    data : option DbStats }.

(** What [await response.json()] followed by [data.response] does: the
    promise rejects, or the body is [null] and the property access raises a
    [TypeError] with an engine-specific message, or an object is read. *)
Inductive JsonResult :=
| JsonRejects (e : Thrown)
| JsonNull (typeErrorMessage : string)
| JsonObject (r : ReplyJson).

(** A [Response]: its [ok] flag, the raw text the server sent as body, and
    the result of parsing that body. *)
Record Response := mkResponse
  { ok : bool;
    serverText : string;
    json : JsonResult }.

(** How the promise returned by [fetch] settles. *)
Inductive FetchResult :=
| FetchRejects (e : Thrown)
| FetchResolves (r : Response).

(** *** Component state *)

Record State := mkState
  { (* React state *)
    messages : list Message;
    input : string;
    isLoading : bool;
    dbStats : option DbStats;
    isTyping : bool;
    (* the world around it *)
    requests : list Request;    (* every [fetch] issued so far, oldest first *)
    inFlight : list Request;    (* cycles suspended at [await fetch] *)
    focusCalls : nat }.         (* calls of [inputRef.current.focus()] *)

(** [useState] initial values. *)
Definition initialState : State :=
  {| messages := []; input := ""; isLoading := false; dbStats := None;
     isTyping := false; requests := []; inFlight := []; focusCalls := 0 |}.

Definition setMessages (f : list Message -> list Message) (s : State) : State :=
  {| messages := f (messages s); input := input s; isLoading := isLoading s;
     dbStats := dbStats s; isTyping := isTyping s; requests := requests s;
     inFlight := inFlight s; focusCalls := focusCalls s |}.

Definition setInput (v : string) (s : State) : State :=
  {| messages := messages s; input := v; isLoading := isLoading s;
     dbStats := dbStats s; isTyping := isTyping s; requests := requests s;
     inFlight := inFlight s; focusCalls := focusCalls s |}.

Definition setIsLoading (b : bool) (s : State) : State :=
  {| messages := messages s; input := input s; isLoading := b;
     dbStats := dbStats s; isTyping := isTyping s; requests := requests s;
     inFlight := inFlight s; focusCalls := focusCalls s |}.

Definition setDbStats (d : option DbStats) (s : State) : State :=
  {| messages := messages s; input := input s; isLoading := isLoading s;
     dbStats := d; isTyping := isTyping s; requests := requests s;
     inFlight := inFlight s; focusCalls := focusCalls s |}.

Definition setIsTyping (b : bool) (s : State) : State :=
  {| messages := messages s; input := input s; isLoading := isLoading s;
     dbStats := dbStats s; isTyping := b; requests := requests s;
     inFlight := inFlight s; focusCalls := focusCalls s |}.

(** [fetch(...)]: the call is issued and the caller suspends on it. *)
Definition fetch (r : Request) (s : State) : State :=
  {| messages := messages s; input := input s; isLoading := isLoading s;
     dbStats := dbStats s; isTyping := isTyping s;
     requests := (requests s ++ [r])%list;
     inFlight := (inFlight s ++ [r])%list; focusCalls := focusCalls s |}.

(** The suspended cycle at the head of [inFlight] is woken up. *)
Definition wake (s : State) : State :=
  {| messages := messages s; input := input s; isLoading := isLoading s;
     dbStats := dbStats s; isTyping := isTyping s; requests := requests s;
     inFlight := tl (inFlight s); focusCalls := focusCalls s |}.

(** [if (inputRef.current) inputRef.current.focus()]; the input element is
    rendered unconditionally, so the ref is set. *)
Definition focusInput (s : State) : State :=
  {| messages := messages s; input := input s; isLoading := isLoading s;
     dbStats := dbStats s; isTyping := isTyping s; requests := requests s;
     inFlight := inFlight s; focusCalls := S (focusCalls s) |}.

(** ** The error classifier (the [if]/[else if] chain of the [catch] block) *)

Inductive Category := ModelUnavailable | RateLimited | InvalidRequest | Unknown.

(** [error instanceof Error ? error.message : "Error desconocido"] *)
Definition errorMessageOf (error : Thrown) : string :=
  match error with
  | ErrorObject msg => msg
  | OtherValue => "Error desconocido"
  end.

(** The message built in the [catch] block, branch by branch. *)
Definition userFriendlyMessage (errorMessage : string) : string :=
  let lead := "Lo siento, hubo un error procesando tu mensaje: " in
  if includes errorMessage "model_not_found" then
    lead ++ "Hay un problema con el modelo de AI. Por favor, contacta al administrador."
  else if includes errorMessage "rate_limit" then
    lead ++ "Estamos procesando demasiadas peticiones. Por favor, espera un momento y vuelve a intentar."
  else if includes errorMessage "invalid_request_error" then
    lead ++ "La solicitud no es válida. Por favor, intenta reformular tu pregunta."
  else
    lead ++ "Por favor, intenta de nuevo en unos momentos.".

(** Which branch of that chain is taken. *)
Definition classify (errorMessage : string) : Category :=
  if includes errorMessage "model_not_found" then ModelUnavailable
  else if includes errorMessage "rate_limit" then RateLimited
  else if includes errorMessage "invalid_request_error" then InvalidRequest
  else Unknown.

Definition leadIn : string := "Lo siento, hubo un error procesando tu mensaje: ".

Definition template (c : Category) : string :=
  match c with
  | ModelUnavailable =>
      "Hay un problema con el modelo de AI. Por favor, contacta al administrador."
  | RateLimited =>
      "Estamos procesando demasiadas peticiones. Por favor, espera un momento y vuelve a intentar."
  | InvalidRequest =>
      "La solicitud no es válida. Por favor, intenta reformular tu pregunta."
  | Unknown => "Por favor, intenta de nuevo en unos momentos."
  end.

(** ** A state-and-exception monad for the body of the async handler *)

Definition M (A : Type) : Type := State -> (Thrown + A) * State.

Definition ret {A} (a : A) : M A := fun s => (inr a, s).

Definition throw {A} (e : Thrown) : M A := fun s => (inl e, s).

Definition bind {A B} (m : M A) (k : A -> M B) : M B :=
  fun s =>
    match m s with
    | (inl e, s') => (inl e, s')
    | (inr a, s') => k a s'
    end.

Definition effect (f : State -> State) : M unit := fun s => (inr tt, f s).

Notation "x <- m ;; k" := (bind m (fun x => k))
  (at level 61, m at next level, right associativity).
Notation "m ;;; k" := (bind m (fun _ => k))
  (at level 61, right associativity).

(** [try { body } catch (error) { handler } finally { fin }]: the handler
    sees what the body threw, the finaliser runs whatever happened, and a
    throw of the handler (or of the finaliser) leaves the statement. *)
Definition tryCatchFinally
    (tryBody : M unit) (handler : Thrown -> M unit) (fin : M unit) : M unit :=
  fun s =>
    let '(r1, s1) :=
      match tryBody s with
      | (inl error, s') => handler error s'
      | (inr tt, s') => (inr tt, s')
      end in
    match fin s1 with
    | (inl e, s2) => (inl e, s2)
    | (inr _, s2) => (r1, s2)
    end.

(** ** The handlers *)

Definition project (m : Message) : WireMessage :=
  {| wire_content := content m; wire_role := role m |}.

(** The request [handleSendMessage] builds from the [messages] of its
    closure, that is, of the render in which the handler was created. *)
Definition chatRequest (text : string) (closureMessages : list Message) : Request :=
  {| url := "/api/chat";
     method := "POST";
     contentType := "application/json";
     body := {| message := text; history := map project closureMessages |} |}.

(** The values of the state variables that the handlers read, as captured
    by the render that created the handlers. *)
Record Closure := mkClosure
  { seenMessages : list Message;
    seenInput : string;
    seenIsLoading : bool }.

(** The closure of a render of state [s]. *)
Definition closureOf (s : State) : Closure :=
  {| seenMessages := messages s;
     seenInput := input s;
     seenIsLoading := isLoading s |}.

(** [handleSendMessage], up to the point where it suspends on [fetch].
    The guard and the history read the closure [c]; the setters, of which
    [setMessages] is given an updater function, act on the current state
    [s].  [now] is the value of [Date.now()], [stamp] that of
    [new Date()]. *)
Definition handleSendMessage
    (c : Closure) (text : string) (now stamp : N) (s : State) : State :=
  if negb (truthy (trim text)) || seenIsLoading c then s
  else
    let userMessage :=
      {| id := toString now; content := text; role := user; timestamp := stamp |} in
    let s1 := setMessages (fun prev => (prev ++ [userMessage])%list) s in
    let s2 := setInput "" s1 in
    let s3 := setIsLoading true s2 in
    let s4 := setIsTyping true s3 in
    fetch (chatRequest text (seenMessages c)) s4.

Definition awaitFetch (settled : FetchResult) : M Response :=
  match settled with
  | FetchRejects e => throw e
  | FetchResolves r => ret r
  end.

Definition awaitJson (r : Response) : M ReplyJson :=
  match json r with
  | JsonRejects e => throw e
  | JsonNull typeErrorMessage => throw (ErrorObject typeErrorMessage)
  | JsonObject reply => ret reply
  end.

(** The [try] block after [await fetch]. *)
Definition tryBlock (settled : FetchResult) (now stamp : N) : M unit :=
  resp <- awaitFetch settled ;;
  (if negb (ok resp) then throw (ErrorObject "Failed to get response") else ret tt) ;;;
  reply <- awaitJson resp ;;
  let assistantMessage :=
    {| id := toString (now + 1); content := response reply;
       role := assistant; timestamp := stamp |} in
  effect (setMessages (fun prev => (prev ++ [assistantMessage])%list)) ;;;
  match data reply with
  | Some d => effect (setDbStats (Some d))
  | None => ret tt
  end.

(** The [catch (error)] block. *)
Definition catchBlock (now stamp : N) (error : Thrown) : M unit :=
  let errorMessage := errorMessageOf error in
  effect (setMessages (fun prev =>
    (prev ++ [ {| id := toString now;
                  content := userFriendlyMessage errorMessage;
                  role := assistant;
                  timestamp := stamp |} ])%list)).

(** The [finally] block. *)
Definition finallyBlock : M unit :=
  effect (setIsLoading false) ;;;
  effect (setIsTyping false) ;;;
  effect focusInput.

(** The continuation of [handleSendMessage] once [fetch] has settled.  The
    result is [inr tt] when the async function's promise is fulfilled and
    [inl e] when it is rejected with [e], which no caller would handle. *)
Definition resumeSendMessage (settled : FetchResult) (now stamp : N) : M unit :=
  tryCatchFinally (tryBlock settled now stamp) (catchBlock now stamp) finallyBlock.

(** [handleSubmit]: [handleSendMessage(input)]. *)
Definition handleSubmit (c : Closure) (now stamp : N) (s : State) : State :=
  handleSendMessage c (seenInput c) now stamp s.

(** [clearChat] *)
Definition clearChat (s : State) : State :=
  focusInput (setMessages (fun _ => []) s).

(** ** The session as a transition system *)

Inductive Event :=
| Typed (value : string)                       (* [onChange]: [setInput] *)
| Submit (now stamp : N)                       (* the form's [onSubmit] *)
| SelectSuggestion (index : nat) (now stamp : N) (* a suggestion's [onClick] *)
| Clear                                        (* the trash button *)
| Settle (settled : FetchResult) (now stamp : N). (* the fetch promise settles *)

(** One event, handled by the handlers of the render with closure [c],
    in state [s].  Only the two sending handlers read the closure. *)
Definition stepIn (c : Closure) (ev : Event) (s : State) : State :=
  match ev with
  | Typed value => setInput value s
  | Submit now stamp => handleSubmit c now stamp s
  | SelectSuggestion index now stamp =>
      match nth_error SUGGESTED_QUERIES index with
      | Some query => handleSendMessage c query now stamp s
      | None => s
      end
  | Clear => clearChat s
  | Settle settled now stamp =>
      match inFlight s with
      | [] => s
      | _ :: _ => snd (resumeSendMessage settled now stamp (wake s))
      end
  end.

(** One event handled on an up-to-date page: the render of [s] has been
    committed before the event is delivered. *)
Definition step (ev : Event) (s : State) : State :=
  stepIn (closureOf s) ev s.

Fixpoint run (evs : list Event) (s : State) : State :=
  match evs with
  | [] => s
  | ev :: rest => run rest (step ev s)
  end.

(** States reached when every event finds the page up to date. *)
Definition RenderedReachable (s : State) : Prop :=
  exists evs, run evs initialState = s.

(** The component between renders: the current state and the closure of
    the last committed render, whose handlers are the ones attached. *)
Record Page := mkPage
  { live : State;
    shown : Closure }.

Inductive Action :=
| Handle (ev : Event)     (* an event runs through the attached handlers *)
| Commit.                 (* React commits a render of the current state *)

Definition act (a : Action) (p : Page) : Page :=
  match a with
  | Handle ev => {| live := stepIn (shown p) ev (live p); shown := shown p |}
  | Commit => {| live := live p; shown := closureOf (live p) |}
  end.

Fixpoint perform (acts : list Action) (p : Page) : Page :=
  match acts with
  | [] => p
  | a :: rest => perform rest (act a p)
  end.

Definition initialPage : Page :=
  {| live := initialState; shown := closureOf initialState |}.

(** Every state the component can be in, renders being committed at any
    time between events. *)
Definition Reachable (s : State) : Prop :=
  exists acts, live (perform acts initialPage) = s.

(** What the rendered page lets happen: the text field is disabled while
    loading, the send button while loading or on blank input, suggestions
    show on an empty conversation, the trash button on a non-empty one. *)
Definition offered (ev : Event) (s : State) : bool :=
  match ev with
  | Typed _ => negb (isLoading s)
  | Submit _ _ => negb (isLoading s || negb (truthy (trim (input s))))
  | SelectSuggestion index _ _ =>
      (List.length (messages s) =? 0)%nat && (index <? List.length SUGGESTED_QUERIES)%nat
  | Clear => negb (List.length (messages s) =? 0)%nat
  | Settle _ _ _ => negb (List.length (inFlight s) =? 0)%nat
  end.

Fixpoint allOffered (evs : list Event) (s : State) : bool :=
  match evs with
  | [] => true
  | ev :: rest => offered ev s && allOffered rest (step ev s)
  end.

(** Clock readings of a run, in the order they are taken. *)
Definition readings (ev : Event) : list N :=
  match ev with
  | Submit now stamp | SelectSuggestion _ now stamp | Settle _ now stamp =>
      [now; stamp]
  | _ => []
  end.

Fixpoint nondecreasing (l : list N) : bool :=
  match l with
  | a :: (b :: _) as rest => (a <=? b)%N && nondecreasing rest
  | _ => true
  end.

Definition clockSound (evs : list Event) : bool :=
  nondecreasing (flat_map readings evs).

(** ** Notions used to state the properties *)

(** The state left by the [finally] block. *)
Definition finalized (s : State) : State :=
  focusInput (setIsTyping false (setIsLoading false s)).

Definition errorBubble (now stamp : N) (error : Thrown) : Message :=
  {| id := toString now;
     content := userFriendlyMessage (errorMessageOf error);
     role := assistant;
     timestamp := stamp |}.

Definition replyBubble (now stamp : N) (reply : ReplyJson) : Message :=
  {| id := toString (now + 1);
     content := response reply;
     role := assistant;
     timestamp := stamp |}.

Definition append (m : Message) (prev : list Message) : list Message :=
  (prev ++ [m])%list.

(** The guard of [handleSendMessage], as the handlers of closure [c]
    evaluate it. *)
Definition accepted (c : Closure) (text : string) : bool :=
  truthy (trim text) && negb (seenIsLoading c).

(** At most one cycle in flight, and none when not loading. *)
Definition OneInFlight (s : State) : Prop :=
  List.length (inFlight s) = if isLoading s then 1 else 0.

(** ** Concrete sessions *)

(** A suggestion is clicked at millisecond 1000: one cycle is pending. *)
Definition pendingSession : State :=
  run [SelectSuggestion 4 1000 1000] initialState.

Definition imageStats : DbStats :=
  {| total_records := 5; types := ["image"];
     related_records := None; latest_update := None |}.

Definition olderStats : DbStats :=
  {| total_records := 9; types := ["text"; "audio"];
     related_records := Some 3%Z; latest_update := Some "2024-05-01" |}.

Definition okReply (reply : ReplyJson) : FetchResult :=
  FetchResolves {| ok := true; serverText := ""; json := JsonObject reply |}.

Definition offline : FetchResult := FetchRejects (ErrorObject "Failed to fetch").

(** The server answers 429 with the text [rate_limit exceeded]. *)
Definition rateLimitedByServer : FetchResult :=
  FetchResolves {| ok := false;
                   serverText := "rate_limit exceeded";
                   json := JsonRejects (ErrorObject "Unexpected token r in JSON") |}.

(** Send, clear while the reply is awaited, then the reply arrives. *)
Definition clearWhilePending : list Event :=
  [ SelectSuggestion 4 1000 1000;
    Clear;
    Settle (okReply {| response := "hi"; data := None |}) 1500 1500 ].

(** Send while offline: the fetch fails within the same millisecond. *)
Definition failWithinTheMillisecond : list Event :=
  [ SelectSuggestion 4 1000 1000; Settle offline 1000 1000 ].

(** The reply arrives within the millisecond of the send. *)
Definition replyWithinTheMillisecond : list Event :=
  [ SelectSuggestion 4 1000 1000;
    Settle (okReply {| response := "hi"; data := None |}) 1000 1000 ].

(** ... and the next question is sent one millisecond later. *)
Definition sendRightAfterReply : list Event :=
  (replyWithinTheMillisecond ++ [ Typed "y"; Submit 1001 1001 ])%list.

(** The same events with a render committed after each of them. *)
Definition rendering (evs : list Event) : list Action :=
  flat_map (fun ev => [Handle ev; Commit]) evs.

(** Two clicks on a suggestion, both handled by the handlers of the first
    render: no render is committed between them. *)
Definition twoClicksOneRender : list Action :=
  [ Handle (SelectSuggestion 4 1000 1000);
    Handle (SelectSuggestion 4 1001 1001) ].

(** ... then the first fetch is answered, the page renders, and a further
    question is typed and sent. *)
Definition twoClicksThenAnotherSend : list Action :=
  (twoClicksOneRender
   ++ [ Handle (Settle (okReply {| response := "hi"; data := None |}) 1500 1500);
        Commit;
        Handle (Typed "y"); Commit;
        Handle (Submit 2000 2000) ])%list.

(** ** Rendering decisions *)

(** The icon components [getTypeIcon] chooses from. *)
Inductive Icon := ImageIcon | FileText | Headphones | MessageCircle.

(** The capital letters [A]..[Z] move to [a]..[z]; any other byte stays. *)
Definition lowerAscii (c : ascii) : ascii :=
  let n := nat_of_ascii c in
  if (65 <=? n)%nat && (n <=? 90)%nat then ascii_of_nat (n + 32) else c.

(** Lower-casing of the letters A..Z of a text.  This is what
    [type.toLowerCase()] does to ASCII text.  On other text JavaScript
    also changes characters outside ASCII, but it maps none of them to a
    single ASCII letter, so whether the result equals one of the ASCII
    words [image], [text], [audio] is decided by [lowerLetters] alone. *)
Fixpoint lowerLetters (s : string) : string :=
  match s with
  | EmptyString => EmptyString
  | String c rest => String (lowerAscii c) (lowerLetters rest)
  end.

(** [getTypeIcon]: the [switch] on [type.toLowerCase()], whose cases are
    the three words above and a default. *)
Definition getTypeIcon (type : string) : Icon :=
  let lowered := lowerLetters type in
  if lowered =? "image" then ImageIcon
  else if lowered =? "text" then FileText
  else if lowered =? "audio" then Headphones
  else MessageCircle.

(** The "Escribiendo..." line: rendered in the branch of a non-empty
    conversation, under [isTyping &&]. *)
Definition typingIndicatorShown (s : State) : bool :=
  negb (List.length (messages s) =? 0)%nat && isTyping s.

(** ** Further notions used to state properties *)

(** Two bytes that are equal, or are the capital and the small form of
    one of the letters A..Z. *)
Definition sameLetter (a b : ascii) : bool :=
  let x := nat_of_ascii a in
  let y := nat_of_ascii b in
  (x =? y)%nat
  || ((65 <=? x)%nat && (x <=? 90)%nat && (y =? x + 32)%nat)
  || ((65 <=? y)%nat && (y <=? 90)%nat && (x =? y + 32)%nat).

(** Two texts that differ at most in the case of their letters A..Z. *)
Fixpoint sameSpelling (a b : string) : bool :=
  match a, b with
  | EmptyString, EmptyString => true
  | String x a', String y b' => sameLetter x y && sameSpelling a' b'
  | _, _ => false
  end.

Definition userBubble (text : string) (now stamp : N) : Message :=
  {| id := toString now; content := text; role := user; timestamp := stamp |}.

(** The state [handleSendMessage] leaves when it accepts [text]. *)
Definition started
    (c : Closure) (text : string) (now stamp : N) (s : State) : State :=
  fetch (chatRequest text (seenMessages c))
    (setIsTyping true (setIsLoading true (setInput ""
       (setMessages (append (userBubble text now stamp)) s)))).

(** The state the continuation leaves when it appended [m] and holds
    [stats]. *)
Definition settledState (m : Message) (stats : option DbStats) (s : State) : State :=
  finalized (setDbStats stats (setMessages (append m) (wake s))).

(** The transitions of the session, one constructor per path through a
    handler, for handlers of the render with closure [c]. *)
Inductive Transition (c : Closure) (s : State) : Event -> State -> Prop :=
| TTyped value :
    Transition c s (Typed value) (setInput value s)
| TSubmitDropped now stamp :
    accepted c (seenInput c) = false ->
    Transition c s (Submit now stamp) s
| TSubmit now stamp :
    accepted c (seenInput c) = true ->
    Transition c s (Submit now stamp) (started c (seenInput c) now stamp s)
| TSuggestAbsent index now stamp :
    nth_error SUGGESTED_QUERIES index = None ->
    Transition c s (SelectSuggestion index now stamp) s
| TSuggestDropped index query now stamp :
    nth_error SUGGESTED_QUERIES index = Some query ->
    accepted c query = false ->
    Transition c s (SelectSuggestion index now stamp) s
| TSuggest index query now stamp :
    nth_error SUGGESTED_QUERIES index = Some query ->
    accepted c query = true ->
    Transition c s (SelectSuggestion index now stamp) (started c query now stamp s)
| TClear :
    Transition c s Clear (clearChat s)
| TSettleIdle settled now stamp :
    inFlight s = [] ->
    Transition c s (Settle settled now stamp) s
| TSettle settled now stamp r rest m stats :
    inFlight s = r :: rest ->
    role m = assistant ->
    timestamp m = stamp ->
    (stats = dbStats s \/ exists d, stats = Some d) ->
    Transition c s (Settle settled now stamp) (settledState m stats s).

(** Does the [try] block run to its end: the fetch resolved, the response
    is ok and its body parsed to an object. *)
Definition succeeds (settled : FetchResult) : bool :=
  match settled with
  | FetchRejects _ => false
  | FetchResolves r =>
      ok r && match json r with JsonObject _ => true | _ => false end
  end.

(** States reached using only what the rendered page offers. *)
Definition ReachableOnPage (s : State) : Prop :=
  exists evs, allOffered evs initialState = true /\ run evs initialState = s.

Definition role_eqb (a b : Role) : bool :=
  match a, b with
  | user, user | assistant, assistant => true
  | _, _ => false
  end.

(** No two neighbours of the same role. *)
Fixpoint alternates (l : list Role) : bool :=
  match l with
  | a :: (b :: _) as rest => negb (role_eqb a b) && alternates rest
  | _ => true
  end.

Definition isUser (m : Message) : bool := role_eqb (role m) user.

(** The texts handed to the server, oldest first. *)
Definition sentTexts (s : State) : list string :=
  map (fun r => message (body r)) (requests s).

(** What every request of the component looks like. *)
Definition wellFormed (r : Request) : Prop :=
  url r = "/api/chat" /\ method r = "POST"
  /\ contentType r = "application/json"
  /\ trim (message (body r)) <> "".

(** While a cycle is pending it is the only one, it is the last request
    issued, and -- unless the conversation was cleared meanwhile -- the
    conversation ends with the user message it carries, the request's
    history being everything before that message. *)
Definition PendingMatches (s : State) : Prop :=
  if isLoading s then
    exists r earlier,
      inFlight s = [r] /\ requests s = (earlier ++ [r])%list
      /\ (messages s = []
          \/ exists before u,
               messages s = (before ++ [u])%list
               /\ role u = user /\ content u = message (body r)
               /\ history (body r) = map project before)
  else inFlight s = [].

(** ** Facts about the string primitives *)

Section StringFacts.

Example trim_samples :
  trim "" = "" /\ trim "   " = "" /\ trim "  hola  " = "hola"
  /\ trim (ofBytes [9; 194; 160; 10]) = ""
  /\ toString 1000 = "1000" /\ toString 0 = "0".
Proof. repeat split; vm_compute; reflexivity. Qed.

Lemma prefix_true_iff (t s : string) :
  String.prefix t s = true <-> exists after, s = t ++ after.
Proof.
  revert s; induction t as [| a t IH]; intros s; simpl.
  - split; [intros _; now exists s | intros _; now destruct s].
  - destruct s as [| b s]; simpl.
    + split; [discriminate | intros [after H]; discriminate].
    + destruct (ascii_dec a b) as [-> | Hne].
      * rewrite IH. split; intros [after H]; exists after.
        -- now rewrite H.
        -- now injection H.
      * split; [discriminate |].
        intros [after H]. injection H as Hb _. now subst.
Qed.

Lemma includes_unfold (s t : string) :
  includes s t =
  String.prefix t s
  || match s with
     | EmptyString => false
     | String _ rest => includes rest t
     end.
Proof. destruct s; reflexivity. Qed.

(** [includes] is substring search. *)
Lemma includes_true_iff (s t : string) :
  includes s t = true <-> Occurs t s.
Proof.
  split.
  - induction s as [| c s IH]; rewrite includes_unfold, orb_true_iff.
    + intros [H | H]; [| discriminate].
      apply prefix_true_iff in H as [after H]. now exists "", after.
    + intros [H | H].
      * apply prefix_true_iff in H as [after H]. now exists "", after.
      * destruct (IH H) as (before & after & ->).
        now exists (String c before), after.
  - intros (before & after & ->).
    induction before as [| c before IH].
    + rewrite includes_unfold. apply orb_true_iff. left.
      apply prefix_true_iff. now exists after.
    + change (String c before ++ t ++ after)
        with (String c (before ++ t ++ after)).
      rewrite includes_unfold, IH. apply orb_true_r.
Qed.

Lemma includes_false_iff (s t : string) :
  includes s t = false <-> ~ Occurs t s.
Proof.
  rewrite <- includes_true_iff. destruct (includes s t); intuition congruence.
Qed.

Lemma dropWhile_nil_iff {A} (p : A -> bool) (l : list A) :
  dropWhile p l = [] <-> forallb p l = true.
Proof.
  induction l as [| x l IH]; simpl.
  - tauto.
  - destruct (p x); simpl; [exact IH | split; discriminate].
Qed.

Lemma dropWhile_head {A} (p : A -> bool) (l : list A) x rest :
  dropWhile p l = x :: rest -> p x = false.
Proof.
  induction l as [| y l IH]; simpl; [discriminate |].
  destruct (p y) eqn:E; [exact IH |].
  intros H; injection H as -> _. exact E.
Qed.

Lemma dropWhile_incl {A} (p : A -> bool) (l : list A) :
  incl (dropWhile p l) l.
Proof.
  induction l as [| y l IH]; simpl; [apply incl_refl |].
  destruct (p y); [now apply incl_tl | apply incl_refl].
Qed.

Lemma trimmed_nil_iff {A} (p : A -> bool) (l : list A) :
  rev (dropWhile p (rev (dropWhile p l))) = [] <-> forallb p l = true.
Proof.
  rewrite <- dropWhile_nil_iff.
  destruct (dropWhile p l) as [| x rest] eqn:E.
  - simpl. tauto.
  - split; [| discriminate].
    intros H. apply (f_equal (@rev A)) in H.
    rewrite rev_involutive in H. simpl in H.
    apply dropWhile_nil_iff in H.
    rewrite forallb_app in H. apply andb_true_iff in H as [_ H].
    simpl in H. rewrite (dropWhile_head _ _ _ _ E) in H. discriminate.
Qed.

Lemma codePoints_nonempty_upto (n : nat) :
  forall s, (String.length s <= n)%nat ->
            Forall (fun cp => cp <> "") (codePoints s).
Proof.
  induction n as [| n IH]; intros s Hlen.
  - destruct s; [constructor | simpl in Hlen; lia].
  - destruct s as [| c1 r1]; [constructor |].
    simpl in Hlen. simpl.
    destruct (utf8Width c1) as [| [| [| [| w]]]].
    + destruct r1 as [| c2 [| c3 [| c4 r4]]];
        try (constructor; [discriminate | constructor]).
      constructor; [discriminate | apply IH; simpl in *; lia].
    + constructor; [discriminate | apply IH; lia].
    + destruct r1 as [| c2 r2].
      * constructor; [discriminate | constructor].
      * constructor; [discriminate | apply IH; simpl in *; lia].
    + destruct r1 as [| c2 [| c3 r3]];
        try (constructor; [discriminate | constructor]).
      constructor; [discriminate | apply IH; simpl in *; lia].
    + destruct r1 as [| c2 [| c3 [| c4 r4]]];
        try (constructor; [discriminate | constructor]).
      constructor; [discriminate | apply IH; simpl in *; lia].
Qed.

Lemma codePoints_nonempty (s : string) :
  Forall (fun cp => cp <> "") (codePoints s).
Proof. apply (codePoints_nonempty_upto (String.length s)). lia. Qed.

Lemma concat_empty_nil (l : list string) :
  Forall (fun cp => cp <> "") l -> String.concat "" l = "" -> l = [].
Proof.
  intros H. destruct H as [| x l Hx Hl]; [reflexivity |].
  simpl. destruct l.
  - intros ->. now elim Hx.
  - destruct x; [now elim Hx | discriminate].
Qed.

(** A text trims to the empty string exactly when it consists of white
    space only. *)
Lemma trim_empty_iff (s : string) :
  trim s = "" <-> forallb isWhiteSpace (codePoints s) = true.
Proof.
  unfold trim. rewrite <- trimmed_nil_iff. split.
  - apply concat_empty_nil.
    apply Forall_forall. intros cp Hin.
    apply (proj1 (Forall_forall _ _) (codePoints_nonempty s)).
    apply in_rev in Hin. apply dropWhile_incl in Hin.
    apply in_rev in Hin. now apply dropWhile_incl in Hin.
  - now intros ->.
Qed.

End StringFacts.

(** ** Facts about the handlers *)

Section HandlerFacts.

Lemma userFriendlyMessage_classify (errorMessage : string) :
  userFriendlyMessage errorMessage = leadIn ++ template (classify errorMessage).
Proof.
  unfold userFriendlyMessage, classify, leadIn.
  destruct (includes errorMessage "model_not_found"); [reflexivity |].
  destruct (includes errorMessage "rate_limit"); [reflexivity |].
  destruct (includes errorMessage "invalid_request_error"); reflexivity.
Qed.

Lemma finallyBlock_runs (s : State) : finallyBlock s = (inr tt, finalized s).
Proof. reflexivity. Qed.

(** The [try] block either throws before touching the state, or it read a
    reply object from an [ok] response and appended it. *)
Lemma tryBlock_cases (settled : FetchResult) (now stamp : N) (s : State) :
  (exists e, tryBlock settled now stamp s = (inl e, s))
  \/ (exists txt reply,
        settled = FetchResolves
                    {| ok := true; serverText := txt; json := JsonObject reply |}
        /\ tryBlock settled now stamp s =
           (inr tt,
            match data reply with
            | Some d => setDbStats (Some d)
                          (setMessages (append (replyBubble now stamp reply)) s)
            | None => setMessages (append (replyBubble now stamp reply)) s
            end)).
Proof.
  destruct settled as [e | [[|] txt [e | m | reply]]].
  - left. now exists e.
  - left. now exists e.
  - left. now exists (ErrorObject m).
  - right. exists txt, reply. split; [reflexivity |].
    unfold tryBlock, bind, awaitFetch, awaitJson, ret, effect. simpl.
    destruct (data reply); reflexivity.
  - left. now exists (ErrorObject "Failed to get response").
  - left. now exists (ErrorObject "Failed to get response").
  - left. now exists (ErrorObject "Failed to get response").
Qed.

Lemma resume_after_throw settled now stamp s e s1 :
  tryBlock settled now stamp s = (inl e, s1) ->
  resumeSendMessage settled now stamp s =
  (inr tt, finalized (setMessages (append (errorBubble now stamp e)) s)).
Proof.
  intros H.
  destruct (tryBlock_cases settled now stamp s) as [[e' H'] | (txt & reply & _ & H')];
    rewrite H' in H; [| discriminate].
  injection H as -> ->.
  unfold resumeSendMessage, tryCatchFinally. rewrite H'. reflexivity.
Qed.

Lemma resume_after_return settled now stamp s s1 :
  tryBlock settled now stamp s = (inr tt, s1) ->
  resumeSendMessage settled now stamp s = (inr tt, finalized s1).
Proof.
  intros H. unfold resumeSendMessage, tryCatchFinally. now rewrite H.
Qed.

(** Whatever happened, the continuation fulfils its promise, appends
    exactly one assistant message and clears both flags. *)
Lemma resume_summary settled now stamp s :
  exists m stats,
    resumeSendMessage settled now stamp s =
    (inr tt, finalized (setDbStats stats (setMessages (append m) s)))
    /\ role m = assistant.
Proof.
  destruct (tryBlock_cases settled now stamp s) as [[e H] | (txt & reply & _ & H)].
  - exists (errorBubble now stamp e), (dbStats s).
    rewrite (resume_after_throw _ _ _ _ _ _ H). split; reflexivity.
  - rewrite (resume_after_return _ _ _ _ _ H).
    exists (replyBubble now stamp reply).
    destruct (data reply) as [d |].
    + exists (Some d). split; reflexivity.
    + exists (dbStats s). split; reflexivity.
Qed.

Lemma handleSendMessage_dropped c text now stamp s :
  accepted c text = false -> handleSendMessage c text now stamp s = s.
Proof.
  unfold accepted, handleSendMessage. intros H.
  destruct (truthy (trim text)), (seenIsLoading c); simpl in *;
    try reflexivity; discriminate.
Qed.

Lemma handleSendMessage_accepted c text now stamp s :
  accepted c text = true ->
  handleSendMessage c text now stamp s =
  fetch (chatRequest text (seenMessages c))
    (setIsTyping true (setIsLoading true (setInput ""
       (setMessages
          (append {| id := toString now; content := text;
                     role := user; timestamp := stamp |}) s)))).
Proof.
  unfold accepted, handleSendMessage. intros H.
  destruct (truthy (trim text)), (seenIsLoading c); simpl in *;
    try discriminate; reflexivity.
Qed.

Lemma accepted_idle c text : accepted c text = true -> seenIsLoading c = false.
Proof.
  unfold accepted. intros H. apply andb_true_iff in H as [_ H].
  now destruct (seenIsLoading c).
Qed.

Lemma step_OneInFlight ev s : OneInFlight s -> OneInFlight (step ev s).
Proof.
  unfold OneInFlight, step. intros Inv.
  assert (forall text now stamp,
             List.length (inFlight (handleSendMessage (closureOf s) text now stamp s)) =
             if isLoading (handleSendMessage (closureOf s) text now stamp s)
             then 1 else 0)
    as Hsend.
  { intros text now stamp. destruct (accepted (closureOf s) text) eqn:Acc.
    - rewrite (handleSendMessage_accepted _ _ _ _ _ Acc). simpl.
      apply accepted_idle in Acc. simpl in Acc. rewrite Acc in Inv.
      rewrite length_app, Inv. reflexivity.
    - now rewrite (handleSendMessage_dropped _ _ _ _ _ Acc). }
  destruct ev as [value | now stamp | index now stamp | | settled now stamp]; simpl.
  - exact Inv.
  - apply Hsend.
  - destruct (nth_error SUGGESTED_QUERIES index); [apply Hsend | exact Inv].
  - exact Inv.
  - destruct (inFlight s) as [| r rest] eqn:E; [now rewrite E |].
    destruct (resume_summary settled now stamp (wake s)) as (m & stats & -> & _).
    simpl. rewrite E. simpl.
    destruct (isLoading s); simpl in Inv; [| discriminate].
    destruct rest; [reflexivity | discriminate].
Qed.

Lemma rendered_OneInFlight s : RenderedReachable s -> OneInFlight s.
Proof.
  intros [evs <-].
  assert (forall s0, OneInFlight s0 -> OneInFlight (run evs s0)) as H.
  { induction evs as [| ev evs IH]; intros s0 H0; simpl; [exact H0 |].
    apply IH. now apply step_OneInFlight. }
  apply H. reflexivity.
Qed.

(** A run on up-to-date pages is a run of the component in which a render
    is committed after every event. *)
Lemma perform_rendering evs s :
  perform (rendering evs) {| live := s; shown := closureOf s |}
  = {| live := run evs s; shown := closureOf (run evs s) |}.
Proof.
  revert s; induction evs as [| ev evs IH]; intros s; [reflexivity |].
  simpl. apply IH.
Qed.

Lemma rendered_reachable s : RenderedReachable s -> Reachable s.
Proof.
  intros [evs <-]. exists (rendering evs).
  unfold initialPage. now rewrite perform_rendering.
Qed.

End HandlerFacts.

(** ** The claims *)

Lemma truthy_true_iff (t : string) : truthy t = true <-> t <> "".
Proof. destruct t; simpl; split; congruence. Qed.

Lemma project_ext (l1 l2 : list Message) :
  map content l1 = map content l2 -> map role l1 = map role l2 ->
  map project l1 = map project l2.
Proof.
  revert l2; induction l1 as [| m l1 IH]; intros [| m' l2] Hc Hr;
    simpl in *; try discriminate; [reflexivity |].
  injection Hc as Hc1 Hc2. injection Hr as Hr1 Hr2.
  unfold project at 1 3. rewrite Hc1, Hr1. f_equal. now apply IH.
Qed.


(** C2. However the fetch of an accepted cycle settles, the continuation
    completes normally (its promise is fulfilled, nothing escapes), and it
    leaves [isLoading] and [isTyping] false.  Whenever the [try] block
    throws -- and it does for a rejected fetch, for a response that is not
    ok, and for a body that fails to parse -- one assistant message built
    by the [catch] block is appended.  From a state reached on up-to-date
    pages with a cycle in flight, settling it leaves no cycle in flight;
    from any state with a cycle in flight, settling takes that cycle out
    of flight and clears both flags. *)
Theorem C2_finalization_always_runs :
  (forall settled now stamp s,
      let outcome := resumeSendMessage settled now stamp s in
      fst outcome = inr tt
      /\ isLoading (snd outcome) = false
      /\ isTyping (snd outcome) = false
      /\ (forall e s1,
            tryBlock settled now stamp s = (inl e, s1) ->
            messages (snd outcome) =
              (messages s ++
                 [ {| id := toString now;
                      content := userFriendlyMessage (errorMessageOf e);
                      role := assistant;
                      timestamp := stamp |} ])%list))
  /\ (forall now stamp s,
        (forall e, tryBlock (FetchRejects e) now stamp s = (inl e, s))
        /\ (forall r, ok r = false ->
              tryBlock (FetchResolves r) now stamp s =
                (inl (ErrorObject "Failed to get response"), s))
        /\ (forall r e, ok r = true -> json r = JsonRejects e ->
              tryBlock (FetchResolves r) now stamp s = (inl e, s)))
  /\ (forall s settled now stamp,
        RenderedReachable s -> inFlight s <> [] ->
        let s' := step (Settle settled now stamp) s in
        isLoading s' = false /\ isTyping s' = false /\ inFlight s' = [])
  /\ (forall c s settled now stamp,
        inFlight s <> [] ->
        let s' := stepIn c (Settle settled now stamp) s in
        isLoading s' = false /\ isTyping s' = false
        /\ inFlight s' = tl (inFlight s)).
Proof.
  split; [| split; [| split]].
  - intros settled now stamp s outcome. subst outcome.
    destruct (resume_summary settled now stamp s) as (m & stats & E & _).
    split; [now rewrite E |]. split; [now rewrite E |]. split; [now rewrite E |].
    intros e s1 Hthrow.
    rewrite (resume_after_throw _ _ _ _ _ _ Hthrow). reflexivity.
  - intros now stamp s. repeat split.
    + intros [ok0 txt js] Hok. simpl in Hok. subst ok0. reflexivity.
    + intros [ok0 txt js] e Hok Hjs. simpl in Hok, Hjs. subst. reflexivity.
  - intros s settled now stamp Hr Hne s'. subst s'.
    apply rendered_OneInFlight in Hr. unfold OneInFlight in Hr.
    unfold step. simpl.
    destruct (inFlight s) as [| r rest] eqn:E; [now elim Hne |].
    destruct (resume_summary settled now stamp (wake s)) as (m & stats & -> & _).
    simpl. rewrite E. simpl.
    repeat split. destruct (isLoading s); simpl in Hr; [| discriminate].
    now destruct rest.
  - intros c s settled now stamp Hne s'. subst s'. simpl.
    destruct (inFlight s) as [| r rest] eqn:E; [now elim Hne |].
    destruct (resume_summary settled now stamp (wake s)) as (m & stats & -> & _).
    simpl. rewrite E. repeat split.
Qed.

Lemma C2_finalization_always_runs_witness :
  tryBlock rateLimitedByServer 1500 1500 pendingSession =
    (inl (ErrorObject "Failed to get response"), pendingSession)
  /\ List.length (messages (snd (resumeSendMessage rateLimitedByServer
                                   1500 1500 pendingSession))) = 2%nat
  /\ isLoading (step (Settle offline 1500 1500) pendingSession) = false.
Proof.
  split; [| split].
  - apply (proj1 (proj2 (proj1 (proj2 C2_finalization_always_runs)
                           1500%N 1500%N pendingSession))).
    reflexivity.
  - rewrite (proj2 (proj2 (proj2 (proj1 C2_finalization_always_runs
               rateLimitedByServer 1500%N 1500%N pendingSession)))
               (ErrorObject "Failed to get response") pendingSession);
      reflexivity.
  - apply (proj1 (proj2 (proj2 C2_finalization_always_runs))
             pendingSession offline 1500%N 1500%N).
    + exists [SelectSuggestion 4 1000 1000]. reflexivity.
    + discriminate.
Defined.

(** C3. The classifier is a function of the error text alone and checks,
    in this order, whether the text contains [model_not_found], then
    [rate_limit], then [invalid_request_error]; the first hit decides and
    no hit gives [Unknown].  The search is case-sensitive, an absent text
    (a thrown value that is not an [Error]) is classified [Unknown], and
    the text appended by the [catch] block is the lead-in followed by the
    template of the category, distinct categories having distinct
    templates. *)
Theorem C3_classifier_priority_order :
  (forall m, Occurs "model_not_found" m -> classify m = ModelUnavailable)
  /\ (forall m, ~ Occurs "model_not_found" m -> Occurs "rate_limit" m ->
        classify m = RateLimited)
  /\ (forall m, ~ Occurs "model_not_found" m -> ~ Occurs "rate_limit" m ->
        Occurs "invalid_request_error" m -> classify m = InvalidRequest)
  /\ (forall m, ~ Occurs "model_not_found" m -> ~ Occurs "rate_limit" m ->
        ~ Occurs "invalid_request_error" m -> classify m = Unknown)
  /\ (forall error,
        userFriendlyMessage (errorMessageOf error) =
          leadIn ++ template (classify (errorMessageOf error)))
  /\ (forall c1 c2, template c1 = template c2 -> c1 = c2)
  /\ classify "model_not_found: x" = ModelUnavailable
  /\ classify "rate_limit exceeded" = RateLimited
  /\ classify "invalid_request_error: bad field" = InvalidRequest
  /\ classify "boom" = Unknown
  /\ classify (errorMessageOf OtherValue) = Unknown
  /\ classify "Rate_Limit exceeded" = Unknown
  /\ classify "invalid_request_error after rate_limit and model_not_found"
     = ModelUnavailable.
Proof.
  repeat match goal with |- _ /\ _ => split end;
    try (vm_compute; reflexivity).
  - intros m H. apply includes_true_iff in H.
    unfold classify. now rewrite H.
  - intros m H1 H2. apply includes_false_iff in H1. apply includes_true_iff in H2.
    unfold classify. now rewrite H1, H2.
  - intros m H1 H2 H3.
    apply includes_false_iff in H1, H2. apply includes_true_iff in H3.
    unfold classify. now rewrite H1, H2, H3.
  - intros m H1 H2 H3. apply includes_false_iff in H1, H2, H3.
    unfold classify. now rewrite H1, H2, H3.
  - intros error. apply userFriendlyMessage_classify.
  - intros [] []; intros H; try reflexivity; vm_compute in H; discriminate.
Qed.

Lemma C3_classifier_priority_order_witness :
  Occurs "rate_limit" "429: rate_limit exceeded"
  /\ classify "429: rate_limit exceeded" = RateLimited.
Proof.
  assert (Occurs "rate_limit" "429: rate_limit exceeded") as Hocc
    by (apply includes_true_iff; vm_compute; reflexivity).
  split; [exact Hocc |].
  apply (proj1 (proj2 C3_classifier_priority_order) "429: rate_limit exceeded").
  - apply includes_false_iff. vm_compute. reflexivity.
  - exact Hocc.
Defined.

(** C4 (the code departs from the claim).  When the response is not ok the
    [try] block throws a fresh [Error] whose message is the fixed text
    [Failed to get response]; the text sent by the server never reaches
    the classifier.  A server text that would classify as [RateLimited] is
    answered with the [Unknown] template. *)
Theorem C4_non_ok_status_discards_server_text :
  (forall txt js now stamp s,
      let settled := FetchResolves {| ok := false; serverText := txt; json := js |} in
      tryBlock settled now stamp s =
        (inl (ErrorObject "Failed to get response"), s)
      /\ messages (snd (resumeSendMessage settled now stamp s)) =
           (messages s ++
              [ {| id := toString now;
                   content := leadIn ++ template Unknown;
                   role := assistant;
                   timestamp := stamp |} ])%list)
  /\ classify "rate_limit exceeded" = RateLimited
  /\ map content
       (messages (snd (resumeSendMessage rateLimitedByServer 1500 1500 pendingSession)))
     = [ "¿Hay audios en español?"; leadIn ++ template Unknown ].
Proof.
  split; [| split; vm_compute; reflexivity].
  intros txt js now stamp s settled. subst settled.
  assert (tryBlock (FetchResolves {| ok := false; serverText := txt; json := js |})
            now stamp s = (inl (ErrorObject "Failed to get response"), s)) as H
    by reflexivity.
  split; [exact H |].
  rewrite (resume_after_throw _ _ _ _ _ _ H). reflexivity.
Qed.

(** C5. A text that trims to the empty string -- that is, a text made of
    white space only, the empty text included -- is dropped at the guard
    of [handleSendMessage], whatever render the handler belongs to: the
    state, including the list of issued requests, is returned unchanged;
    so is it when the text comes from the input field through
    [handleSubmit]. *)
Theorem C5_blank_input_is_a_noop :
  (forall c text now stamp s,
      trim text = "" ->
      handleSendMessage c text now stamp s = s
      /\ (seenInput c = text -> stepIn c (Submit now stamp) s = s)
      /\ (input s = text -> step (Submit now stamp) s = s))
  /\ (forall text,
        trim text = "" <-> forallb isWhiteSpace (codePoints text) = true).
Proof.
  split; [| exact trim_empty_iff].
  intros c text now stamp s Hblank.
  assert (forall c', handleSendMessage c' text now stamp s = s) as H.
  { intros c'. apply handleSendMessage_dropped. unfold accepted.
    now rewrite Hblank. }
  split; [apply H |]. split.
  - intros <-. apply H.
  - intros <-. apply (H (closureOf s)).
Qed.

Lemma C5_blank_input_is_a_noop_witness :
  trim "   " = ""
  /\ handleSendMessage (closureOf initialState) "   " 1000 1000 initialState
     = initialState
  /\ handleSendMessage (closureOf initialState) "" 1000 1000 initialState
     = initialState
  /\ step (Submit 1000 1000) (setInput "   " initialState)
     = setInput "   " initialState.
Proof.
  split; [reflexivity |]. split; [| split].
  - apply (proj1 (proj1 C5_blank_input_is_a_noop (closureOf initialState)
                    "   " 1000%N 1000%N initialState eq_refl)).
  - apply (proj1 (proj1 C5_blank_input_is_a_noop (closureOf initialState)
                    "" 1000%N 1000%N initialState eq_refl)).
  - apply (proj2 (proj2 (proj1 C5_blank_input_is_a_noop
                           (closureOf (setInput "   " initialState))
                           "   " 1000%N 1000%N
                           (setInput "   " initialState) eq_refl))).
    reflexivity.
Defined.

(** C6. After a successful reply the tracked dbStats is the reply's [data]
    when it has one, whatever was held before, and the previous value when
    it has none.  A reply with [{total_records: 5, types: ["image"]}]
    leaves exactly that, dropping the optional fields of the older
    snapshot, and a following reply without [data] keeps it. *)
Theorem C6_dbStats_replaced_wholesale :
  (forall txt reply now stamp s,
      dbStats (snd (resumeSendMessage
                      (FetchResolves {| ok := true; serverText := txt;
                                        json := JsonObject reply |})
                      now stamp s))
      = match data reply with
        | Some d => Some d
        | None => dbStats s
        end)
  /\ (let s0 := setDbStats (Some olderStats) pendingSession in
      let s1 := step (Settle (okReply {| response := "hi"; data := Some imageStats |})
                        1500 1500) s0 in
      let s2 := step (SelectSuggestion 0 2000 2000) (step Clear s1) in
      let s3 := step (Settle (okReply {| response := "ok"; data := None |})
                        2500 2500) s2 in
      dbStats s1 = Some imageStats /\ dbStats s3 = Some imageStats).
Proof.
  split; [| vm_compute; split; reflexivity].
  intros txt reply now stamp s.
  destruct (tryBlock_cases
              (FetchResolves {| ok := true; serverText := txt; json := JsonObject reply |})
              now stamp s) as [[e H] | (txt' & reply' & Heq & H)].
  - unfold tryBlock, bind, awaitFetch, awaitJson, ret, effect in H. simpl in H.
    destruct (data reply); discriminate H.
  - injection Heq as <- <-.
    rewrite (resume_after_return _ _ _ _ _ H).
    destruct (data reply); reflexivity.
Qed.


(** C8. [clearChat] leaves an empty message list and the dbStats it
    found. *)
Theorem C8_reset_empties_messages_keeps_stats :
  forall s,
    messages (clearChat s) = [] /\ dbStats (clearChat s) = dbStats s
    /\ step Clear s = clearChat s.
Proof. intros s. repeat split. Qed.

(** C9 (the code departs from the claim).  Ids are readings of a
    millisecond clock.  When the fetch of a send fails within the
    millisecond of the send, the user message and the error message carry
    the same id; the success path adds one to its reading and avoids this
    collision, but then collides with a send made one millisecond after
    the reply.  Both runs use only what the page offers, under a clock
    that never goes back. *)
Theorem C9_message_ids_can_collide :
  allOffered failWithinTheMillisecond initialState = true
  /\ clockSound failWithinTheMillisecond = true
  /\ map id (messages (run failWithinTheMillisecond initialState))
     = ["1000"; "1000"]
  /\ map role (messages (run failWithinTheMillisecond initialState))
     = [user; assistant]
  /\ ~ NoDup (map id (messages (run failWithinTheMillisecond initialState)))
  /\ map id (messages (run replyWithinTheMillisecond initialState))
     = ["1000"; "1001"]
  /\ allOffered sendRightAfterReply initialState = true
  /\ clockSound sendRightAfterReply = true
  /\ map id (messages (run sendRightAfterReply initialState))
     = ["1000"; "1001"; "1001"].
Proof.
  repeat match goal with |- _ /\ _ => split end;
    try (vm_compute; reflexivity).
  intros H.
  assert (map id (messages (run failWithinTheMillisecond initialState))
          = ["1000"; "1000"]) as E by (vm_compute; reflexivity).
  rewrite E in H. inversion H as [| x l Hnotin _]; subst.
  apply Hnotin. now left.
Qed.

(** C10. [clearChat] has no guard: in any state, pending or not, it empties
    the message list and leaves [isLoading], [isTyping], dbStats, the
    issued requests and the suspended cycle as they were.  When that cycle
    settles afterwards, its one assistant message is appended to the empty
    list.  The run send, clear, reply -- made only of what the page offers
    -- ends in a conversation that consists of a single assistant
    message. *)
Theorem C10_clear_while_pending_orphans_the_reply :
  (forall s,
      messages (clearChat s) = []
      /\ isLoading (clearChat s) = isLoading s
      /\ isTyping (clearChat s) = isTyping s
      /\ dbStats (clearChat s) = dbStats s
      /\ requests (clearChat s) = requests s
      /\ inFlight (clearChat s) = inFlight s)
  /\ (forall s settled now stamp,
        inFlight s <> [] ->
        exists m,
          messages (step (Settle settled now stamp) (step Clear s)) = [m]
          /\ role m = assistant)
  /\ allOffered clearWhilePending initialState = true
  /\ clockSound clearWhilePending = true
  /\ isLoading (run [SelectSuggestion 4 1000 1000; Clear] initialState) = true
  /\ map (fun m => (role m, content m))
       (messages (run clearWhilePending initialState))
     = [(assistant, "hi")].
Proof.
  split; [| split; [| repeat split; vm_compute; reflexivity]].
  - intros s. repeat split.
  - intros s settled now stamp Hne.
    change (step Clear s) with (clearChat s).
    unfold step, stepIn.
    change (inFlight (clearChat s)) with (inFlight s).
    destruct (inFlight s) as [| r rest] eqn:E; [now elim Hne |].
    destruct (resume_summary settled now stamp (wake (clearChat s)))
      as (m & stats & -> & Hrole).
    exists m. split; [reflexivity | exact Hrole].
Qed.

Lemma C10_clear_while_pending_orphans_the_reply_witness :
  inFlight pendingSession <> []
  /\ exists m,
       messages (step (Settle offline 1500 1500) (step Clear pendingSession)) = [m]
       /\ role m = assistant.
Proof.
  assert (inFlight pendingSession <> []) as Hne by (vm_compute; discriminate).
  split; [exact Hne |].
  exact (proj1 (proj2 C10_clear_while_pending_orphans_the_reply)
           pendingSession offline 1500%N 1500%N Hne).
Defined.

(** ** Further properties of the handlers *)

Section Transitions.

Lemma resume_shape settled now stamp s :
  exists m stats,
    resumeSendMessage settled now stamp s =
      (inr tt, finalized (setDbStats stats (setMessages (append m) s)))
    /\ role m = assistant /\ timestamp m = stamp
    /\ (stats = dbStats s \/ exists d, stats = Some d).
Proof.
  destruct (tryBlock_cases settled now stamp s) as [[e H] | (txt & reply & _ & H)].
  - exists (errorBubble now stamp e), (dbStats s).
    rewrite (resume_after_throw _ _ _ _ _ _ H).
    repeat split. now left.
  - rewrite (resume_after_return _ _ _ _ _ H).
    exists (replyBubble now stamp reply).
    destruct (data reply) as [d |].
    + exists (Some d). repeat split. right. now exists d.
    + exists (dbStats s). repeat split. now left.
Qed.

Lemma handleSendMessage_Transition c text now stamp s :
  (accepted c text = false /\ handleSendMessage c text now stamp s = s)
  \/ (accepted c text = true
      /\ handleSendMessage c text now stamp s = started c text now stamp s).
Proof.
  destruct (accepted c text) eqn:Acc; [right | left]; split; trivial.
  - now apply handleSendMessage_accepted.
  - now apply handleSendMessage_dropped.
Qed.

(** [stepIn] takes exactly the transitions listed in [Transition]. *)
Lemma stepIn_Transition c ev s : Transition c s ev (stepIn c ev s).
Proof.
  destruct ev as [value | now stamp | index now stamp | | settled now stamp]; simpl.
  - constructor.
  - unfold handleSubmit.
    destruct (handleSendMessage_Transition c (seenInput c) now stamp s)
      as [[Acc ->] | [Acc ->]].
    + now apply TSubmitDropped.
    + now apply TSubmit.
  - destruct (nth_error SUGGESTED_QUERIES index) as [query |] eqn:E.
    + destruct (handleSendMessage_Transition c query now stamp s)
        as [[Acc ->] | [Acc ->]].
      * now apply (TSuggestDropped c s index query).
      * now apply (TSuggest c s index query).
    + now apply TSuggestAbsent.
  - constructor.
  - destruct (inFlight s) as [| r rest] eqn:E.
    + now apply TSettleIdle.
    + destruct (resume_shape settled now stamp (wake s))
        as (m & stats & -> & Hrole & Hstamp & Hstats).
      simpl. now apply (TSettle c s settled now stamp r rest m stats).
Qed.

Lemma step_Transition ev s : Transition (closureOf s) s ev (step ev s).
Proof. apply stepIn_Transition. Qed.

Lemma run_app evs1 evs2 s : run (evs1 ++ evs2)%list s = run evs2 (run evs1 s).
Proof. revert s; induction evs1 as [| ev evs1 IH]; intros s; simpl; auto. Qed.

Lemma allOffered_app evs1 evs2 s :
  allOffered (evs1 ++ evs2)%list s =
  allOffered evs1 s && allOffered evs2 (run evs1 s).
Proof.
  revert s; induction evs1 as [| ev evs1 IH]; intros s; simpl; [reflexivity |].
  now rewrite IH, andb_assoc.
Qed.

Lemma rendered_step ev s : RenderedReachable s -> RenderedReachable (step ev s).
Proof.
  intros [evs <-]. exists (evs ++ [ev])%list. now rewrite run_app.
Qed.

Lemma onPage_step ev s :
  ReachableOnPage s -> offered ev s = true -> ReachableOnPage (step ev s).
Proof.
  intros (evs & Hoff & <-) Hev. exists (evs ++ [ev])%list.
  rewrite allOffered_app, run_app, Hoff. simpl. now rewrite Hev.
Qed.

(** Induction over the states of the component, whatever render the
    handlers of each event belong to. *)
Lemma reachable_invariant (P : State -> Prop) :
  P initialState ->
  (forall c s ev s', P s -> Transition c s ev s' -> P s') ->
  forall s, Reachable s -> P s.
Proof.
  intros Hinit Hstep s [acts <-].
  assert (forall l p, P (live p) -> P (live (perform l p))) as H.
  { clear acts.
    induction l as [| a l IH]; intros p H0; simpl; [exact H0 |].
    apply IH. destruct a as [ev |]; simpl; [| exact H0].
    apply (Hstep (shown p) (live p) ev); [exact H0 | apply stepIn_Transition]. }
  now apply H.
Qed.

(** Induction over the states reached on up-to-date pages. *)
Lemma rendered_invariant (P : State -> Prop) :
  P initialState ->
  (forall s ev s',
      RenderedReachable s -> P s -> Transition (closureOf s) s ev s' -> P s') ->
  forall s, RenderedReachable s -> P s.
Proof.
  intros Hinit Hstep s [evs <-].
  assert (forall l s0, RenderedReachable s0 -> P s0 -> P (run l s0)) as H.
  { clear evs.
    induction l as [| ev evs IH]; intros s0 Hr H0; simpl; [exact H0 |].
    apply IH; [now apply rendered_step |].
    apply (Hstep s0 ev); [exact Hr | exact H0 | apply step_Transition]. }
  apply H; [now exists [] | exact Hinit].
Qed.

(** Induction over the states reached through the page. *)
Lemma onPage_invariant (P : State -> Prop) :
  P initialState ->
  (forall s ev s',
      ReachableOnPage s -> P s -> offered ev s = true ->
      Transition (closureOf s) s ev s' -> P s') ->
  forall s, ReachableOnPage s -> P s.
Proof.
  intros Hinit Hstep s (evs & Hoff & <-).
  assert (forall l s0,
             ReachableOnPage s0 -> P s0 -> allOffered l s0 = true ->
             P (run l s0)) as H.
  { clear evs Hoff.
    induction l as [| ev evs IH]; intros s0 Hr H0 Hall; simpl; [exact H0 |].
    simpl in Hall. apply andb_true_iff in Hall as [Hev Hall].
    apply IH; [now apply onPage_step | | exact Hall].
    apply (Hstep s0 ev); [exact Hr | exact H0 | exact Hev | apply step_Transition]. }
  apply H; [now exists [] | exact Hinit | exact Hoff].
Qed.

Lemma onPage_rendered s : ReachableOnPage s -> RenderedReachable s.
Proof. intros (evs & _ & H). now exists evs. Qed.

Lemma suggested_queries_not_blank index query :
  nth_error SUGGESTED_QUERIES index = Some query -> truthy (trim query) = true.
Proof.
  do 5 (destruct index as [| index];
        [intros H; injection H as <-; vm_compute; reflexivity |]).
  destruct index; discriminate.
Qed.

Lemma alternates_snoc (l : list Role) (x : Role) :
  alternates (l ++ [x])%list =
  alternates l
  && match last (map Some l) None with
     | Some y => negb (role_eqb y x)
     | None => true
     end.
Proof.
  induction l as [| a l IH]; [reflexivity |].
  destruct l as [| b l].
  - simpl. now rewrite andb_true_r.
  - change (alternates ((a :: b :: l) ++ [x])%list)
      with (negb (role_eqb a b) && alternates ((b :: l) ++ [x])%list).
    rewrite IH.
    change (alternates (a :: b :: l))
      with (negb (role_eqb a b) && alternates (b :: l)).
    change (last (map Some (a :: b :: l)) None)
      with (last (map Some (b :: l)) (@None Role)).
    now rewrite andb_assoc.
Qed.

Lemma last_snoc {A} (l : list A) (x d : A) : last (l ++ [x])%list d = x.
Proof.
  induction l as [| a l IH]; [reflexivity |].
  simpl. destruct (l ++ [x])%list eqn:E; [now destruct l | exact IH].
Qed.

End Transitions.

(** ** Further properties of the session *)

Lemma inFlight_pending s r rest :
  RenderedReachable s -> inFlight s = r :: rest ->
  isLoading s = true /\ rest = [].
Proof.
  intros Hr E. apply rendered_OneInFlight in Hr. unfold OneInFlight in Hr.
  rewrite E in Hr. destruct (isLoading s); simpl in Hr; [| discriminate].
  split; [reflexivity | now destruct rest].
Qed.

Lemma messages_started c text now stamp s :
  messages (started c text now stamp s)
  = (messages s ++ [userBubble text now stamp])%list.
Proof. reflexivity. Qed.

Lemma messages_settled m stats s :
  messages (settledState m stats s) = (messages s ++ [m])%list.
Proof. reflexivity. Qed.

Lemma alternates_extend (l : list Role) (x : Role) :
  alternates l = true ->
  (forall y, last (map Some l) None = Some y -> role_eqb y x = false) ->
  alternates (l ++ [x])%list = true
  /\ last (map Some (l ++ [x])%list) None = Some x.
Proof.
  intros Halt Hlast. split.
  - rewrite alternates_snoc, Halt. simpl.
    destruct (last (map Some l) None) as [y |]; [| reflexivity].
    now rewrite (Hlast y eq_refl).
  - rewrite map_app. simpl. apply last_snoc.
Qed.

Lemma conversation_roles :
  forall s,
    RenderedReachable s ->
    alternates (map role (messages s)) = true
    /\ (forall before m,
          messages s = (before ++ [m])%list ->
          role m = if isLoading s then user else assistant).
Proof.
  intros s Hr.
  assert (alternates (map role (messages s)) = true
          /\ match last (map Some (map role (messages s))) None with
             | Some r => r = if isLoading s then user else assistant
             | None => True
             end) as [Halt Hlast].
  { revert s Hr. apply rendered_invariant; [split; [reflexivity | exact I] |].
    intros s ev s' Hr [Halt Hlast] Htr.
    assert (forall text now stamp,
               accepted (closureOf s) text = true ->
               alternates
                 (map role (messages (started (closureOf s) text now stamp s)))
               = true
               /\ match last (map Some (map role
                               (messages (started (closureOf s) text now stamp s))))
                          None with
                  | Some r => r = user
                  | None => True
                  end) as Hsend.
    { intros text now stamp Acc. apply accepted_idle in Acc. simpl in Acc.
      rewrite Acc in Hlast. rewrite messages_started, map_app.
      destruct (alternates_extend (map role (messages s)) user Halt) as [H1 H2].
      - intros y Hy. rewrite Hy in Hlast. now subst.
      - change (map role [userBubble text now stamp]) with [user].
        now rewrite H1, H2. }
    destruct Htr as [value | now stamp Acc | now stamp Acc
                    | index now stamp E | index query now stamp E Acc
                    | index query now stamp E Acc |
                    | settled now stamp E
                    | settled now stamp r rest m stats E Hrole Hstamp Hstats];
      try (split; assumption).
    - now apply Hsend.
    - now apply Hsend.
    - split; [reflexivity | exact I].
    - destruct (inFlight_pending s r rest Hr E) as [Hp _]. rewrite Hp in Hlast.
      rewrite messages_settled, map_app.
      destruct (alternates_extend (map role (messages s)) (role m) Halt) as [H1 H2].
      + intros y Hy. rewrite Hy in Hlast. now rewrite Hlast, Hrole.
      + change (map role [m]) with [role m]. rewrite H1, H2.
        split; [reflexivity | exact Hrole]. }
  split; [exact Halt |].
  intros before m E. rewrite E, !map_app in Hlast. simpl in Hlast.
  rewrite last_snoc in Hlast. exact Hlast.
Qed.

(** X1. As long as every event is handled on an up-to-date page (a render
    is committed between any two events), the roles of the conversation
    alternate -- no two neighbouring messages are both the user's or both
    the assistant's -- and the last message is the user's while a cycle is
    pending and the assistant's otherwise.  The condition is needed: two
    clicks handled by the handlers of one render leave two user messages
    side by side. *)
Theorem X1_roles_alternate :
  (forall s,
      RenderedReachable s ->
      alternates (map role (messages s)) = true
      /\ (forall before m,
            messages s = (before ++ [m])%list ->
            role m = if isLoading s then user else assistant))
  /\ map role (messages (live (perform twoClicksOneRender initialPage)))
     = [user; user].
Proof. split; [exact conversation_roles | reflexivity]. Qed.

Lemma X1_roles_alternate_witness :
  map role (messages (run sendRightAfterReply initialState))
  = [user; assistant; user]
  /\ alternates (map role (messages (run sendRightAfterReply initialState))) = true.
Proof.
  split; [reflexivity |].
  apply (proj1 (proj1 X1_roles_alternate (run sendRightAfterReply initialState)
                  (ex_intro _ sendRightAfterReply eq_refl))).
Defined.

Lemma flags_agree :
  forall s, Reachable s -> isTyping s = isLoading s.
Proof.
  apply reachable_invariant; [reflexivity |].
  intros c s ev s' IH Htr. destruct Htr; simpl; auto.
Qed.

(** X2. In every state of the component, whatever render the handlers of
    each event belonged to, [isTyping] equals [isLoading]: the two flags
    are only ever set together. *)
Theorem X2_typing_equals_loading :
  forall s, Reachable s -> isTyping s = isLoading s.
Proof. exact flags_agree. Qed.

Lemma X2_typing_equals_loading_witness :
  isTyping (live (perform twoClicksOneRender initialPage))
  = isLoading (live (perform twoClicksOneRender initialPage))
  /\ isLoading (live (perform twoClicksOneRender initialPage)) = true.
Proof.
  split; [| reflexivity].
  apply (X2_typing_equals_loading (live (perform twoClicksOneRender initialPage))).
  exists twoClicksOneRender. reflexivity.
Defined.

(** X3. One whole cycle from a state with nothing in flight: a send
    accepted by the handler of any render, followed by the settling of its
    fetch, whatever the outcome, appends exactly the user message and then
    one assistant message, issues exactly one request, empties the input
    field and leaves the session idle again. *)
Theorem X3_cycle_appends_question_then_answer :
  forall c s text now stamp settled now' stamp',
    accepted c text = true -> inFlight s = [] ->
    let s2 := step (Settle settled now' stamp')
                (handleSendMessage c text now stamp s) in
    exists m,
      messages s2 = (messages s ++ [userBubble text now stamp; m])%list
      /\ role m = assistant /\ timestamp m = stamp'
      /\ isLoading s2 = false /\ isTyping s2 = false /\ input s2 = ""
      /\ inFlight s2 = []
      /\ requests s2 = (requests s ++ [chatRequest text (seenMessages c)])%list.
Proof.
  intros c s text now stamp settled now' stamp' Acc Hin s2. subst s2.
  rewrite (handleSendMessage_accepted _ _ _ _ _ Acc).
  unfold step, stepIn. simpl inFlight. rewrite Hin. simpl app.
  destruct (resume_shape settled now' stamp'
              (wake (fetch (chatRequest text (seenMessages c))
                 (setIsTyping true (setIsLoading true (setInput ""
                    (setMessages
                       (append {| id := toString now; content := text;
                                  role := user; timestamp := stamp |}) s)))))))
    as (m & stats & -> & Hrole & Hstamp & _).
  exists m. simpl. rewrite Hin. unfold append, userBubble.
  rewrite <- app_assoc. simpl. repeat split; assumption.
Qed.

Lemma X3_cycle_appends_question_then_answer_witness :
  accepted (closureOf initialState) "hola" = true
  /\ exists m,
       messages (step (Settle offline 1000 1000)
                   (handleSendMessage (closureOf initialState)
                      "hola" 1000 1000 initialState))
       = [userBubble "hola" 1000 1000; m].
Proof.
  split; [reflexivity |].
  destruct (X3_cycle_appends_question_then_answer
              (closureOf initialState) initialState "hola" 1000%N 1000%N
              offline 1000%N 1000%N eq_refl eq_refl) as (m & H & _).
  exists m. exact H.
Defined.

(** X4. While idle, clicking a suggestion leaves exactly the state that
    typing the same query and submitting it leaves: the query is sent and
    the input field is emptied.  While a cycle is pending the click changes
    nothing, whereas typing and submitting would leave the query in the
    input field. *)
Theorem X4_suggestion_equals_type_and_submit :
  forall s index query now stamp,
    nth_error SUGGESTED_QUERIES index = Some query ->
    (isLoading s = false ->
       step (SelectSuggestion index now stamp) s
       = started (closureOf s) query now stamp s
       /\ step (Submit now stamp) (step (Typed query) s)
          = step (SelectSuggestion index now stamp) s)
    /\ (isLoading s = true ->
          step (SelectSuggestion index now stamp) s = s
          /\ step (Submit now stamp) (step (Typed query) s) = setInput query s).
Proof.
  intros s index query now stamp E.
  pose proof (suggested_queries_not_blank index query E) as Hq.
  unfold step. simpl stepIn. rewrite E. unfold handleSubmit. simpl seenInput.
  split; intros Hl.
  - assert (accepted (closureOf s) query = true) as A1
      by (unfold accepted; simpl; now rewrite Hq, Hl).
    assert (accepted (closureOf (setInput query s)) query = true) as A2
      by (unfold accepted; simpl; now rewrite Hq, Hl).
    rewrite (handleSendMessage_accepted _ _ _ _ _ A1).
    rewrite (handleSendMessage_accepted _ _ _ _ _ A2).
    split; reflexivity.
  - assert (accepted (closureOf s) query = false) as A1
      by (unfold accepted; simpl; rewrite Hl; apply andb_false_r).
    assert (accepted (closureOf (setInput query s)) query = false) as A2
      by (unfold accepted; simpl; rewrite Hl; apply andb_false_r).
    rewrite (handleSendMessage_dropped _ _ _ _ _ A1).
    rewrite (handleSendMessage_dropped _ _ _ _ _ A2).
    split; reflexivity.
Qed.

Lemma X4_suggestion_equals_type_and_submit_witness :
  nth_error SUGGESTED_QUERIES 4 = Some "¿Hay audios en español?"
  /\ step (Submit 1000 1000) (step (Typed "¿Hay audios en español?") initialState)
     = step (SelectSuggestion 4 1000 1000) initialState.
Proof.
  split; [reflexivity |].
  apply (proj1 (X4_suggestion_equals_type_and_submit
                  initialState 4%nat "¿Hay audios en español?" 1000%N 1000%N
                  eq_refl)).
  reflexivity.
Defined.

(** X5. The send button is enabled exactly when [handleSendMessage] will
    accept the input: a submit through an enabled button always appends
    the user message and issues one request, and a submit that the button
    would have blocked changes nothing. *)
Theorem X5_enabled_send_button_is_never_dropped :
  forall s now stamp,
    (offered (Submit now stamp) s = true ->
       step (Submit now stamp) s = started (closureOf s) (input s) now stamp s
       /\ List.length (requests (step (Submit now stamp) s))
          = S (List.length (requests s))
       /\ step (Submit now stamp) s <> s)
    /\ (offered (Submit now stamp) s = false -> step (Submit now stamp) s = s).
Proof.
  intros s now stamp.
  assert (offered (Submit now stamp) s = accepted (closureOf s) (input s)) as ->.
  { unfold offered, accepted. simpl.
    destruct (isLoading s), (truthy (trim (input s))); reflexivity. }
  unfold step. simpl stepIn. unfold handleSubmit. simpl seenInput.
  split; intros Acc.
  - rewrite (handleSendMessage_accepted _ _ _ _ _ Acc).
    split; [reflexivity |]. split.
    + simpl. rewrite length_app. simpl. lia.
    + intros H. apply (f_equal isLoading) in H. simpl in H.
      apply accepted_idle in Acc. simpl in Acc. congruence.
  - now apply handleSendMessage_dropped.
Qed.

Lemma X5_enabled_send_button_is_never_dropped_witness :
  offered (Submit 1000 1000) (setInput "hola" initialState) = true
  /\ offered (Submit 1000 1000) (setInput "  " initialState) = false
  /\ List.length (requests (step (Submit 1000 1000) (setInput "hola" initialState)))
     = 1%nat
  /\ step (Submit 1000 1000) (setInput "  " initialState)
     = setInput "  " initialState.
Proof.
  split; [reflexivity |]. split; [reflexivity |]. split.
  - apply (proj1 (proj2 (proj1 (X5_enabled_send_button_is_never_dropped
                                  (setInput "hola" initialState) 1000%N 1000%N)
                           eq_refl))).
  - apply (proj2 (X5_enabled_send_button_is_never_dropped
                    (setInput "  " initialState) 1000%N 1000%N)).
    reflexivity.
Defined.

Lemma transition_dbStats c s ev s' :
  Transition c s ev s' ->
  dbStats s' = dbStats s
  \/ exists settled now stamp d,
       ev = Settle settled now stamp /\ dbStats s' = Some d.
Proof.
  intros Htr.
  destruct Htr as [value | now stamp Acc | now stamp Acc
                  | index now stamp E | index query now stamp E Acc
                  | index query now stamp E Acc |
                  | settled now stamp E
                  | settled now stamp r rest m stats E Hrole Hstamp Hstats];
    try (left; reflexivity).
  destruct Hstats as [-> | [d ->]]; [left; reflexivity |].
  right. now exists settled, now, stamp, d.
Qed.

(** X6. No handler ever resets the tracked dbStats: once a value is held,
    some value is held after any sequence of events, [clearChat] included;
    and a sequence without a settling fetch leaves dbStats exactly as it
    was. *)
Theorem X6_dbStats_is_never_reset :
  forall evs s,
    (dbStats s <> None -> dbStats (run evs s) <> None)
    /\ ((forall settled now stamp, ~ In (Settle settled now stamp) evs) ->
          dbStats (run evs s) = dbStats s).
Proof.
  induction evs as [| ev evs IH]; intros s; simpl; [split; auto |].
  destruct (IH (step ev s)) as [IH1 IH2].
  destruct (transition_dbStats _ s ev _ (step_Transition ev s))
    as [Heq | (settled & now & stamp & d & Hev & Hd)].
  - split.
    + intros H. apply IH1. now rewrite Heq.
    + intros H. rewrite IH2, Heq; [reflexivity |].
      intros settled now stamp Hin. apply (H settled now stamp). now right.
  - split.
    + intros _. apply IH1. now rewrite Hd.
    + intros H. exfalso. apply (H settled now stamp). now left.
Qed.

Lemma X6_dbStats_is_never_reset_witness :
  dbStats (setDbStats (Some imageStats) initialState) <> None
  /\ dbStats (run clearWhilePending (setDbStats (Some imageStats) initialState))
     <> None
  /\ dbStats (run [Typed "x"; Clear] (setDbStats (Some imageStats) initialState))
     = Some imageStats.
Proof.
  assert (dbStats (setDbStats (Some imageStats) initialState) <> None) as H
    by discriminate.
  split; [exact H |]. split.
  - exact (proj1 (X6_dbStats_is_never_reset clearWhilePending
                    (setDbStats (Some imageStats) initialState)) H).
  - apply (proj2 (X6_dbStats_is_never_reset [Typed "x"; Clear]
                    (setDbStats (Some imageStats) initialState))).
    intros settled now stamp [Hin | [Hin | []]]; discriminate.
Defined.

Lemma transition_messages c s ev s' :
  Transition c s ev s' -> ev <> Clear ->
  exists tail,
    messages s' = (messages s ++ tail)%list /\ (List.length tail <= 1)%nat.
Proof.
  intros Htr Hne.
  destruct Htr as [value | now stamp Acc | now stamp Acc
                  | index now stamp E | index query now stamp E Acc
                  | index query now stamp E Acc |
                  | settled now stamp E
                  | settled now stamp r rest m stats E Hrole Hstamp Hstats];
    try (exists []; rewrite app_nil_r; split; [reflexivity | simpl; lia]).
  - exists [userBubble (seenInput c) now stamp].
    split; [reflexivity | simpl; lia].
  - exists [userBubble query now stamp]. split; [reflexivity | simpl; lia].
  - now elim Hne.
  - exists [m]. split; [reflexivity | simpl; lia].
Qed.

(** X7. Only [clearChat] removes messages: along any sequence of events
    without a clear, the conversation only grows at its end, by at most one
    message per event; earlier messages are never reordered, edited or
    dropped. *)
Theorem X7_messages_are_append_only :
  forall evs s,
    ~ In Clear evs ->
    exists tail,
      messages (run evs s) = (messages s ++ tail)%list
      /\ (List.length tail <= List.length evs)%nat.
Proof.
  induction evs as [| ev evs IH]; intros s Hno; simpl.
  - exists []. rewrite app_nil_r. split; [reflexivity | simpl; lia].
  - destruct (transition_messages _ s ev _ (step_Transition ev s))
      as (t1 & E1 & L1).
    { intros ->. apply Hno. now left. }
    destruct (IH (step ev s)) as (t2 & E2 & L2).
    { intros Hin. apply Hno. now right. }
    exists (t1 ++ t2)%list. rewrite E2, E1, <- app_assoc.
    split; [reflexivity |]. rewrite length_app. lia.
Qed.

Lemma X7_messages_are_append_only_witness :
  ~ In Clear failWithinTheMillisecond
  /\ exists tail,
       messages (run failWithinTheMillisecond pendingSession)
       = (messages pendingSession ++ tail)%list
       /\ (List.length tail <= 2)%nat.
Proof.
  assert (~ In Clear failWithinTheMillisecond) as Hno
    by (intros [H | [H | []]]; discriminate).
  split; [exact Hno |].
  exact (X7_messages_are_append_only failWithinTheMillisecond pendingSession Hno).
Defined.

Lemma userTexts_snoc_user (l : list Message) (u : Message) :
  role u = user ->
  map content (filter isUser (l ++ [u])%list)
  = (map content (filter isUser l) ++ [content u])%list.
Proof.
  intros Hu. rewrite filter_app, map_app. simpl. unfold isUser at 2.
  now rewrite Hu.
Qed.

Lemma userTexts_snoc_assistant (l : list Message) (m : Message) :
  role m = assistant ->
  map content (filter isUser (l ++ [m])%list) = map content (filter isUser l).
Proof.
  intros Hm. rewrite filter_app, map_app. simpl. unfold isUser at 2.
  rewrite Hm. simpl. apply app_nil_r.
Qed.

Lemma transition_sentTexts c s ev s' :
  Transition c s ev s' ->
  (ev = Clear /\ sentTexts s' = sentTexts s /\ messages s' = [])
  \/ (ev <> Clear
      /\ exists sent,
           sentTexts s' = (sentTexts s ++ sent)%list
           /\ map content (filter isUser (messages s'))
              = (map content (filter isUser (messages s)) ++ sent)%list).
Proof.
  intros Htr.
  destruct Htr as [value | now stamp Acc | now stamp Acc
                  | index now stamp E | index query now stamp E Acc
                  | index query now stamp E Acc |
                  | settled now stamp E
                  | settled now stamp r rest m stats E Hrole Hstamp Hstats];
    try (right; split; [discriminate |]; exists [];
         rewrite !app_nil_r; split; reflexivity).
  - right. split; [discriminate |]. exists [seenInput c]. split.
    + unfold sentTexts. simpl. now rewrite map_app.
    + rewrite messages_started. now apply userTexts_snoc_user.
  - right. split; [discriminate |]. exists [query]. split.
    + unfold sentTexts. simpl. now rewrite map_app.
    + rewrite messages_started. now apply userTexts_snoc_user.
  - left. repeat split.
  - right. split; [discriminate |]. exists []. rewrite !app_nil_r. split.
    + reflexivity.
    + rewrite messages_settled. now apply userTexts_snoc_assistant.
Qed.

(** X8. The texts handed to the server are the user messages of the
    conversation: from any state where the two lists agree, a sequence of
    events without a clear keeps them equal, text by text and in order; in
    every state of the component, whatever render the handlers of each
    event belonged to, the user messages still on display are the last
    texts sent. *)
Theorem X8_sent_texts_are_the_user_messages :
  (forall evs s,
      ~ In Clear evs ->
      sentTexts s = map content (filter isUser (messages s)) ->
      sentTexts (run evs s)
      = map content (filter isUser (messages (run evs s))))
  /\ (forall s,
        Reachable s ->
        exists earlier,
          sentTexts s
          = (earlier ++ map content (filter isUser (messages s)))%list).
Proof.
  split.
  - induction evs as [| ev evs IH]; intros s Hno Heq; simpl; [exact Heq |].
    apply IH; [intros Hin; apply Hno; now right |].
    destruct (transition_sentTexts _ s ev _ (step_Transition ev s))
      as [(Hc & _) | (_ & sent & E1 & E2)].
    + exfalso. apply Hno. left. now symmetry.
    + now rewrite E1, E2, Heq.
  - apply reachable_invariant; [now exists [] |].
    intros c s ev s' [earlier IH] Htr.
    destruct (transition_sentTexts c s ev s' Htr)
      as [(_ & E1 & E2) | (_ & sent & E1 & E2)].
    + exists (sentTexts s). rewrite E1, E2. simpl. now rewrite app_nil_r.
    + exists earlier. now rewrite E1, E2, IH, app_assoc.
Qed.

Lemma X8_sent_texts_are_the_user_messages_witness :
  ~ In Clear sendRightAfterReply
  /\ sentTexts (run sendRightAfterReply initialState)
     = ["¿Hay audios en español?"; "y"]
  /\ sentTexts (run sendRightAfterReply initialState)
     = map content (filter isUser (messages (run sendRightAfterReply initialState))).
Proof.
  assert (~ In Clear sendRightAfterReply) as Hno
    by (intros [H | [H | [H | [H | []]]]]; discriminate).
  split; [exact Hno |]. split; [reflexivity |].
  exact (proj1 X8_sent_texts_are_the_user_messages
           sendRightAfterReply initialState Hno eq_refl).
Defined.

(** X9. As long as every event is handled on an up-to-date page: while a
    cycle is pending it is the only one in flight and the last request
    issued; unless the conversation was cleared meanwhile, the
    conversation ends with the user message whose text the request
    carries, and the request's history is the projection of everything
    before that message; when no cycle is pending nothing is in flight.
    The condition is needed: two clicks handled by the handlers of one
    render put two cycles in flight. *)
Theorem X9_pending_request_matches_conversation :
  (forall s, RenderedReachable s -> PendingMatches s)
  /\ List.length (inFlight (live (perform twoClicksOneRender initialPage)))
     = 2%nat.
Proof.
  split; [| reflexivity].
  apply rendered_invariant; [reflexivity |].
  intros s ev s' Hr IH Htr.
  assert (forall text now stamp,
             accepted (closureOf s) text = true ->
             PendingMatches (started (closureOf s) text now stamp s))
    as Hsend.
  { intros text now stamp Acc. apply accepted_idle in Acc. simpl in Acc.
    unfold PendingMatches in IH. rewrite Acc in IH.
    unfold PendingMatches. simpl isLoading. cbv iota.
    exists (chatRequest text (messages s)), (requests s).
    split; [simpl; now rewrite IH |]. split; [reflexivity |].
    right. exists (messages s), (userBubble text now stamp).
    repeat split. }
  destruct Htr as [value | now stamp Acc | now stamp Acc
                  | index now stamp E | index query now stamp E Acc
                  | index query now stamp E Acc |
                  | settled now stamp E
                  | settled now stamp r rest m stats E Hrole Hstamp Hstats];
    try exact IH.
  - now apply Hsend.
  - now apply Hsend.
  - unfold PendingMatches in *. simpl isLoading. simpl inFlight. simpl requests.
    destruct (isLoading s); [| exact IH].
    destruct IH as (r & earlier & H1 & H2 & _).
    exists r, earlier. split; [exact H1 |]. split; [exact H2 |]. now left.
  - destruct (inFlight_pending s r rest Hr E) as [_ ->].
    unfold PendingMatches. simpl. now rewrite E.
Qed.

Lemma X9_pending_request_matches_conversation_witness :
  isLoading pendingSession = true /\ PendingMatches pendingSession.
Proof.
  split; [reflexivity |].
  apply (proj1 X9_pending_request_matches_conversation pendingSession).
  exists [SelectSuggestion 4 1000 1000]. reflexivity.
Defined.

(** X10. On the rendered page the input field is empty whenever a cycle is
    pending: an accepted send empties it and the field is disabled until
    the cycle has settled. *)
Theorem X10_input_is_empty_while_pending :
  forall s, ReachableOnPage s -> isLoading s = true -> input s = "".
Proof.
  apply (onPage_invariant (fun s => isLoading s = true -> input s = ""));
    [discriminate |].
  intros s ev s' _ IH Hoff Htr.
  destruct Htr as [value | now stamp Acc | now stamp Acc
                  | index now stamp E | index query now stamp E Acc
                  | index query now stamp E Acc |
                  | settled now stamp E
                  | settled now stamp r rest m stats E Hrole Hstamp Hstats];
    try exact IH; try (intros _; reflexivity).
  - simpl in Hoff. simpl. intros Hl. rewrite Hl in Hoff. discriminate.
  - simpl. discriminate.
Qed.

Lemma X10_input_is_empty_while_pending_witness :
  isLoading (run [Typed "hola"; Submit 1000 1000] initialState) = true
  /\ input (run [Typed "hola"; Submit 1000 1000] initialState) = "".
Proof.
  split; [reflexivity |].
  apply (X10_input_is_empty_while_pending
           (run [Typed "hola"; Submit 1000 1000] initialState)).
  - exists [Typed "hola"; Submit 1000 1000]. split; reflexivity.
  - reflexivity.
Defined.

(** X11. Every request the component has issued, whatever render the
    handlers of each event belonged to, is a JSON POST to [/api/chat]
    whose message is not blank: a text that trims to the empty string is
    never sent to the server. *)
Theorem X11_requests_are_well_formed :
  forall s, Reachable s -> Forall wellFormed (requests s).
Proof.
  apply reachable_invariant; [constructor |].
  intros c s ev s' IH Htr.
  assert (forall text now stamp,
             accepted c text = true ->
             Forall wellFormed (requests (started c text now stamp s))) as Hsend.
  { intros text now stamp Acc. simpl. apply Forall_app. split; [exact IH |].
    constructor; [| constructor]. repeat split.
    simpl. apply truthy_true_iff.
    unfold accepted in Acc. now apply andb_true_iff in Acc as [Acc _]. }
  destruct Htr; try exact IH; now apply Hsend.
Qed.

Lemma X11_requests_are_well_formed_witness :
  List.length (requests (live (perform twoClicksThenAnotherSend initialPage)))
  = 3%nat
  /\ Forall wellFormed
       (requests (live (perform twoClicksThenAnotherSend initialPage))).
Proof.
  split; [reflexivity |].
  apply (X11_requests_are_well_formed
           (live (perform twoClicksThenAnotherSend initialPage))).
  exists twoClicksThenAnotherSend. reflexivity.
Defined.

Lemma pending_last_role :
  forall s,
    Reachable s -> isLoading s = true ->
    match last (map Some (map role (messages s))) None with
    | Some r => r = user
    | None => True
    end.
Proof.
  apply (reachable_invariant
           (fun s => isLoading s = true ->
                     match last (map Some (map role (messages s))) None with
                     | Some r => r = user
                     | None => True
                     end)).
  - intros _. exact I.
  - intros c s ev s' IH Htr.
    assert (forall text now stamp,
               match last (map Some (map role
                             (messages (started c text now stamp s)))) None with
               | Some r => r = user
               | None => True
               end) as Hsend.
    { intros text now stamp. rewrite messages_started, !map_app.
      simpl. now rewrite last_snoc. }
    destruct Htr as [value | now stamp Acc | now stamp Acc
                    | index now stamp E | index query now stamp E Acc
                    | index query now stamp E Acc |
                    | settled now stamp E
                    | settled now stamp r rest m stats E Hrole Hstamp Hstats];
      try exact IH; try (intros _; apply Hsend).
    + intros _. exact I.
    + simpl. discriminate.
Qed.

Lemma pending_last_is_user :
  forall s,
    Reachable s -> isLoading s = true ->
    forall before m, messages s = (before ++ [m])%list -> role m = user.
Proof.
  intros s Hr Hl before m E.
  pose proof (pending_last_role s Hr Hl) as H.
  rewrite E, !map_app in H. simpl in H. now rewrite last_snoc in H.
Qed.

(** X12. In every state of the component the "Escribiendo..." line is
    shown only while a cycle is pending, and then the message right above
    it is the user's; it is hidden, although a cycle is pending, exactly
    when the conversation is empty. *)
Theorem X12_typing_line_follows_a_user_message :
  forall s,
    Reachable s ->
    (typingIndicatorShown s = true ->
       isLoading s = true
       /\ exists before u, messages s = (before ++ [u])%list /\ role u = user)
    /\ (isLoading s = true ->
          (typingIndicatorShown s = false <-> messages s = [])).
Proof.
  intros s Hr. pose proof (flags_agree s Hr) as Hflags.
  unfold typingIndicatorShown. rewrite Hflags. split.
  - intros H. apply andb_true_iff in H as [Hne Hl]. split; [exact Hl |].
    destruct (messages s) as [| a l] eqn:E; [discriminate |].
    destruct (exists_last (l := a :: l)) as (before & u & Elast); [discriminate |].
    exists before, u. split; [exact Elast |].
    apply (pending_last_is_user s Hr Hl before u). now rewrite E.
  - intros Hl. rewrite Hl, andb_true_r.
    destruct (messages s); simpl; split; congruence.
Qed.

Lemma X12_typing_line_follows_a_user_message_witness :
  typingIndicatorShown pendingSession = true
  /\ isLoading pendingSession = true
  /\ typingIndicatorShown (step Clear pendingSession) = false.
Proof.
  split; [reflexivity |]. split.
  - apply (proj1 (X12_typing_line_follows_a_user_message pendingSession
                    (ex_intro _ [Handle (SelectSuggestion 4 1000 1000)] eq_refl))).
    reflexivity.
  - apply (proj2 (X12_typing_line_follows_a_user_message
                    (step Clear pendingSession)
                    (ex_intro _ [Handle (SelectSuggestion 4 1000 1000);
                                 Handle Clear] eq_refl))
             eq_refl).
    reflexivity.
Defined.

Lemma sameLetter_lowerAscii (x y : ascii) :
  sameLetter x y = true -> lowerAscii x = lowerAscii y.
Proof.
  assert (forall z,
             lowerAscii z =
             if (65 <=? nat_of_ascii z)%nat && (nat_of_ascii z <=? 90)%nat
             then ascii_of_nat (nat_of_ascii z + 32)
             else ascii_of_nat (nat_of_ascii z)) as L.
  { intros z. unfold lowerAscii. cbv zeta. now rewrite ascii_nat_embedding. }
  rewrite (L x), (L y). clear L. unfold sameLetter. cbv zeta.
  generalize (nat_of_ascii x) (nat_of_ascii y). intros a b H.
  apply orb_true_iff in H as [H | H]; [apply orb_true_iff in H as [H | H] |].
  - apply Nat.eqb_eq in H. now subst.
  - apply andb_true_iff in H as [H Hb]. apply andb_true_iff in H as [H1 H2].
    apply Nat.eqb_eq in Hb. subst b. rewrite H1, H2. simpl.
    apply Nat.leb_le in H1.
    destruct (Nat.leb_spec (a + 32) 90) as [Hle | Hgt]; [lia |].
    now rewrite andb_false_r.
  - apply andb_true_iff in H as [H Ha]. apply andb_true_iff in H as [H1 H2].
    apply Nat.eqb_eq in Ha. subst a. rewrite H1, H2. simpl.
    apply Nat.leb_le in H1.
    destruct (Nat.leb_spec (b + 32) 90) as [Hle | Hgt]; [lia |].
    now rewrite andb_false_r.
Qed.

Lemma sameLetter_with_lowerAscii (x : ascii) : sameLetter x (lowerAscii x) = true.
Proof. destruct x as [[] [] [] [] [] [] [] []]; vm_compute; reflexivity. Qed.

Lemma sameSpelling_lowerLetters (a b : string) :
  sameSpelling a b = true -> lowerLetters a = lowerLetters b.
Proof.
  revert b; induction a as [| x a IH]; intros [| y b] H;
    simpl in *; try discriminate; [reflexivity |].
  apply andb_true_iff in H as [Hx Hab].
  now rewrite (sameLetter_lowerAscii x y Hx), (IH b Hab).
Qed.

Lemma sameSpelling_with_lowerLetters (a : string) :
  sameSpelling a (lowerLetters a) = true.
Proof.
  induction a as [| x a IH]; simpl; [reflexivity |].
  now rewrite sameLetter_with_lowerAscii, IH.
Qed.

Lemma lowered_iff_sameSpelling (type word : string) :
  lowerLetters word = word ->
  (lowerLetters type = word <-> sameSpelling type word = true).
Proof.
  intros Hw. split.
  - intros <-. apply sameSpelling_with_lowerLetters.
  - intros H. rewrite <- Hw. now apply sameSpelling_lowerLetters.
Qed.

(** X13. [getTypeIcon] ignores the case of the letters of its argument:
    two types that differ at most in the case of their letters A..Z get
    the same icon.  A type gets the image, text or audio icon exactly when
    it is a spelling, in any mix of capitals and small letters, of
    [image], [text] or [audio] respectively, and the fallback icon
    otherwise. *)
Theorem X13_getTypeIcon_ignores_case :
  (forall a b, sameSpelling a b = true -> getTypeIcon a = getTypeIcon b)
  /\ (forall type,
        (getTypeIcon type = ImageIcon <-> sameSpelling type "image" = true)
        /\ (getTypeIcon type = FileText <-> sameSpelling type "text" = true)
        /\ (getTypeIcon type = Headphones <-> sameSpelling type "audio" = true)
        /\ (getTypeIcon type = MessageCircle <->
              sameSpelling type "image" = false
              /\ sameSpelling type "text" = false
              /\ sameSpelling type "audio" = false)).
Proof.
  split.
  - intros a b H. unfold getTypeIcon.
    now rewrite (sameSpelling_lowerLetters a b H).
  - intros type.
    assert (forall word,
               lowerLetters word = word ->
               (sameSpelling type word = false <-> lowerLetters type <> word))
      as Hf.
    { intros word Hw. rewrite <- not_true_iff_false.
      now rewrite <- (lowered_iff_sameSpelling type word Hw). }
    rewrite <- (lowered_iff_sameSpelling type "image" eq_refl).
    rewrite <- (lowered_iff_sameSpelling type "text" eq_refl).
    rewrite <- (lowered_iff_sameSpelling type "audio" eq_refl).
    rewrite (Hf "image" eq_refl), (Hf "text" eq_refl), (Hf "audio" eq_refl).
    unfold getTypeIcon.
    destruct (String.eqb_spec (lowerLetters type) "image") as [-> | H1].
    { repeat split; intros; try reflexivity; try discriminate;
        intuition congruence. }
    destruct (String.eqb_spec (lowerLetters type) "text") as [-> | H2].
    { repeat split; intros; try reflexivity; try discriminate;
        intuition congruence. }
    destruct (String.eqb_spec (lowerLetters type) "audio") as [-> | H3].
    { repeat split; intros; try reflexivity; try discriminate;
        intuition congruence. }
    repeat split; intros; try discriminate; try assumption; try contradiction.
Qed.

Lemma X13_getTypeIcon_ignores_case_witness :
  sameSpelling "Audio" "aUDIO" = true
  /\ getTypeIcon "Audio" = getTypeIcon "aUDIO"
  /\ getTypeIcon "AUDIO" = Headphones
  /\ getTypeIcon "video" = MessageCircle.
Proof.
  split; [reflexivity |]. split; [| split].
  - exact (proj1 X13_getTypeIcon_ignores_case "Audio" "aUDIO" eq_refl).
  - apply (proj2 (proj1 (proj2 (proj2
             (proj2 X13_getTypeIcon_ignores_case "AUDIO"))))).
    reflexivity.
  - apply (proj2 (proj2 (proj2 (proj2
             (proj2 X13_getTypeIcon_ignores_case "video"))))).
    repeat split.
Defined.

Lemma toString_injective (n n' : N) : toString n = toString n' -> n = n'.
Proof.
  unfold toString. intros H.
  assert (forall k, N.to_uint k <> Decimal.Nil) as Hnn.
  { intros [| p]; [discriminate | apply DecimalPos.Unsigned.to_uint_nonnil]. }
  apply (f_equal NilZero.uint_of_string) in H.
  rewrite !NilZero.usu in H by apply Hnn.
  injection H as H. now apply DecimalN.Unsigned.to_uint_inj.
Qed.

Lemma resume_id settled now stamp s :
  exists m stats,
    resumeSendMessage settled now stamp s =
      (inr tt, finalized (setDbStats stats (setMessages (append m) s)))
    /\ id m = toString (if succeeds settled then now + 1 else now)%N.
Proof.
  destruct (tryBlock_cases settled now stamp s) as [[e H] | (txt & reply & Hs & H)].
  - exists (errorBubble now stamp e), (dbStats s).
    rewrite (resume_after_throw _ _ _ _ _ _ H). split; [reflexivity |].
    destruct settled as [e' | [[|] txt [e' | msg | reply]]]; try reflexivity.
    unfold tryBlock, bind, awaitFetch, awaitJson, ret, effect in H. simpl in H.
    destruct (data reply); discriminate H.
  - rewrite (resume_after_return _ _ _ _ _ H). subst settled.
    exists (replyBubble now stamp reply).
    destruct (data reply) as [d |].
    + exists (Some d). split; reflexivity.
    + exists (dbStats s). split; reflexivity.
Qed.

(** X14. Within one cycle, under a clock that does not go back between the
    send and the settling of its fetch, the user message and the message
    that answers it carry the same id exactly when the cycle failed and the
    clock still showed the millisecond of the send; the answer of a
    successful cycle always gets an id of its own. *)
Theorem X14_ids_within_a_cycle :
  forall c s text now stamp settled now' stamp',
    accepted c text = true -> inFlight s = [] -> (now <= now')%N ->
    let s2 := step (Settle settled now' stamp')
                (handleSendMessage c text now stamp s) in
    exists u m,
      messages s2 = (messages s ++ [u; m])%list
      /\ id u = toString now
      /\ (id m = id u <-> succeeds settled = false /\ now' = now).
Proof.
  intros c s text now stamp settled now' stamp' Acc Hin Hclock s2. subst s2.
  rewrite (handleSendMessage_accepted _ _ _ _ _ Acc).
  unfold step, stepIn. simpl inFlight. rewrite Hin. simpl app.
  destruct (resume_id settled now' stamp'
              (wake (fetch (chatRequest text (seenMessages c))
                 (setIsTyping true (setIsLoading true (setInput ""
                    (setMessages
                       (append {| id := toString now; content := text;
                                  role := user; timestamp := stamp |}) s)))))))
    as (m & stats & -> & Hid).
  exists (userBubble text now stamp), m. simpl. unfold append.
  rewrite <- app_assoc. split; [reflexivity |]. split; [reflexivity |].
  rewrite Hid. destruct (succeeds settled); split.
  - intros H. apply toString_injective in H. lia.
  - intros [H _]. discriminate.
  - intros H. apply toString_injective in H. now split.
  - intros [_ ->]. reflexivity.
Qed.

Lemma X14_ids_within_a_cycle_witness :
  accepted (closureOf initialState) "hola" = true
  /\ exists u m,
       messages (step (Settle offline 1000 1000)
                   (handleSendMessage (closureOf initialState)
                      "hola" 1000 1000 initialState)) = [u; m]
       /\ id u = "1000"
       /\ (id m = id u <-> succeeds offline = false /\ 1000%N = 1000%N).
Proof.
  split; [reflexivity |].
  assert (1000 <= 1000)%N as Hle by lia.
  exact (X14_ids_within_a_cycle (closureOf initialState) initialState
           "hola" 1000%N 1000%N offline 1000%N 1000%N eq_refl eq_refl Hle).
Defined.

Lemma map_eq_snoc {A B} (f : A -> B) (l : list A) (before : list B) (w : B) :
  map f l = (before ++ [w])%list ->
  exists l' m, l = (l' ++ [m])%list /\ map f l' = before /\ f m = w.
Proof.
  intros H. apply map_eq_app in H as (l1 & l2 & -> & H1 & H2).
  destruct l2 as [| m [| m' l2]]; try discriminate.
  injection H2 as H2. now exists l1, m.
Qed.

(** X15. As long as every event is handled on an up-to-date page, the
    history sent with a request is a finished conversation: its roles
    alternate and, when it is not empty, it ends with an assistant message
    -- a request never carries an unanswered user message in its history.
    The condition is needed: after two clicks handled by the handlers of
    one render and one reply, the next request's history holds two user
    messages side by side. *)
Theorem X15_history_ends_with_an_answer :
  (forall s,
      RenderedReachable s ->
      Forall (fun r =>
                alternates (map wire_role (history (body r))) = true
                /\ forall before w,
                     history (body r) = (before ++ [w])%list ->
                     wire_role w = assistant)
             (requests s))
  /\ map (fun r => map wire_role (history (body r)))
       (requests (live (perform twoClicksThenAnotherSend initialPage)))
     = [ []; []; [user; user; assistant] ].
Proof.
  split; [| reflexivity].
  apply rendered_invariant; [constructor |].
  intros s ev s' Hr IH Htr.
  assert (forall text now stamp,
             accepted (closureOf s) text = true ->
             Forall (fun r =>
                       alternates (map wire_role (history (body r))) = true
                       /\ forall before w,
                            history (body r) = (before ++ [w])%list ->
                            wire_role w = assistant)
                    (requests (started (closureOf s) text now stamp s))) as Hsend.
  { intros text now stamp Acc. apply accepted_idle in Acc. simpl in Acc.
    destruct (conversation_roles s Hr) as [Halt Hlast]. rewrite Acc in Hlast.
    simpl. apply Forall_app. split; [exact IH |].
    constructor; [| constructor]. simpl. split.
    - rewrite map_map. exact Halt.
    - intros before w Hw.
      apply map_eq_snoc in Hw as (l' & m & E & _ & <-).
      exact (Hlast l' m E). }
  destruct Htr; try exact IH; now apply Hsend.
Qed.

Lemma X15_history_ends_with_an_answer_witness :
  map (fun r => map wire_role (history (body r)))
      (requests (run sendRightAfterReply initialState))
  = [ []; [user; assistant] ]
  /\ Forall (fun r =>
               alternates (map wire_role (history (body r))) = true
               /\ forall before w,
                    history (body r) = (before ++ [w])%list ->
                    wire_role w = assistant)
            (requests (run sendRightAfterReply initialState)).
Proof.
  split; [reflexivity |].
  apply (proj1 X15_history_ends_with_an_answer
           (run sendRightAfterReply initialState)).
  exists sendRightAfterReply. reflexivity.
Defined.

(** X16. Unlike the send button, the suggestion buttons are not disabled
    while a cycle is pending: the click on a displayed suggestion is
    dropped exactly when a cycle is pending, and the page does reach such a
    state, by a send followed by a clear. *)
Theorem X16_displayed_suggestion_can_be_dropped :
  (forall s index now stamp,
      offered (SelectSuggestion index now stamp) s = true ->
      (step (SelectSuggestion index now stamp) s = s <-> isLoading s = true))
  /\ (exists s,
        ReachableOnPage s
        /\ offered (SelectSuggestion 0 2000 2000) s = true
        /\ step (SelectSuggestion 0 2000 2000) s = s).
Proof.
  split.
  - intros s index now stamp Hoff. unfold offered in Hoff.
    apply andb_true_iff in Hoff as [_ Hidx]. apply Nat.ltb_lt in Hidx.
    destruct (nth_error SUGGESTED_QUERIES index) as [query |] eqn:E;
      [| apply nth_error_None in E; lia].
    pose proof (suggested_queries_not_blank index query E) as Hq.
    unfold step. simpl stepIn. rewrite E. split.
    + intros H. destruct (isLoading s) eqn:Hl; [reflexivity |].
      assert (accepted (closureOf s) query = true) as Acc
        by (unfold accepted; simpl; now rewrite Hq, Hl).
      rewrite (handleSendMessage_accepted _ _ _ _ _ Acc) in H.
      apply (f_equal isLoading) in H. simpl in H. congruence.
    + intros Hl. apply handleSendMessage_dropped.
      unfold accepted. simpl. rewrite Hl. apply andb_false_r.
  - exists (run [SelectSuggestion 4 1000 1000; Clear] initialState).
    split; [| split; reflexivity].
    exists [SelectSuggestion 4 1000 1000; Clear]. split; reflexivity.
Qed.

Lemma X16_displayed_suggestion_can_be_dropped_witness :
  offered (SelectSuggestion 0 2000 2000) (step Clear pendingSession) = true
  /\ isLoading (step Clear pendingSession) = true
  /\ step (SelectSuggestion 0 2000 2000) (step Clear pendingSession)
     = step Clear pendingSession.
Proof.
  split; [reflexivity |]. split; [reflexivity |].
  apply (proj1 X16_displayed_suggestion_can_be_dropped
           (step Clear pendingSession) 0%nat 2000%N 2000%N eq_refl).
  reflexivity.
Defined.
